(** * AWSIoTCore_fdw: a shallow embedding of the foreign data wrapper

    The development follows [AWSIoTCore_fdw/AWSIoTCore_fdw.py].  The Python
    class [AIC_fdw] talks to two boto3 clients and to the PostgreSQL host
    (through Multicorn's [log_to_postgres]).  Both are modelled as explicit
    state: every client call is recorded in a trace together with its keyword
    arguments, every yielded row and every log line is recorded as well. *)

From Stdlib Require Import ZArith Ascii String List Lia.
From stdpp Require Import base strings gmap list pretty.

#[local] Set Warnings "-register-all".
#[local] Open Scope Z_scope.

(** ** Python values *)

(** The values that flow through the wrapper: text, integers, the bytes read
    from a shadow payload, JSON-like lists and dictionaries, and [None]. *)
Inductive pyval :=
| VNone
| VBool (b : bool)
| VInt (z : Z)
| VStr (s : string)
| VBytes (s : string)
| VList (l : list pyval)
| VDict (d : gmap string pyval).

(** Python truthiness, as used by [if x:]. *)
Definition truthy (v : pyval) : bool :=
  match v with
  | VNone => false
  | VBool b => b
  | VInt z => negb (Z.eqb z 0)
  | VStr s => negb (String.eqb s "")
  | VBytes s => negb (String.eqb s "")
  | VList l => match l with [] => false | _ => true end
  | VDict d => negb (bool_decide (d = ∅))
  end.

(** [d.get(k)]: the value under [k], or [None]. *)
Definition get (d : gmap string pyval) (k : string) : pyval :=
  default VNone (d !! k).

(** ** The string methods the wrapper uses *)

Definition lower_ascii (c : ascii) : ascii :=
  let n := nat_of_ascii c in
  if (Nat.leb 65 n && Nat.leb n 90)%bool then ascii_of_nat (n + 32) else c.

(** [s.lower()].  Only the letters A-Z are folded; every string the wrapper
    compares against is plain ASCII without the letter k, so this agrees with
    Python on all comparisons made in the source. *)
Fixpoint str_lower (s : string) : string :=
  match s with
  | EmptyString => EmptyString
  | String c s' => String (lower_ascii c) (str_lower s')
  end.

Fixpoint str_count_aux (sub s : string) (skip : nat) : nat :=
  match s with
  | EmptyString => 0%nat
  | String _ s' =>
      match skip with
      | S k => str_count_aux sub s' k
      | O =>
          if String.prefix sub s
          then S (str_count_aux sub s' (String.length sub - 1))
          else str_count_aux sub s' 0
      end
  end.

(** [s.count(sub)]: the number of non-overlapping occurrences. *)
Definition str_count (s sub : string) : nat :=
  match sub with
  | EmptyString => S (String.length s)
  | _ => str_count_aux sub s 0
  end.

(** [s.endswith(suffix)]. *)
Definition str_endswith (s suffix : string) : bool :=
  (Nat.leb (String.length suffix) (String.length s)
   && String.eqb
        (String.substring (String.length s - String.length suffix)
           (String.length suffix) s)
        suffix)%bool.

(** ** Exceptions, predicates, responses *)

(** The Python exceptions that occur: botocore's [ClientError], the builtin
    [NotImplementedError] and [TypeError], and any other [Exception]. *)
Inductive exn :=
| ClientError (msg : string)
| NotImplementedError
| TypeError (msg : string)
| OtherException (msg : string).

Definition exn_str (e : exn) : string :=
  match e with
  | ClientError m => m
  | NotImplementedError => ""
  | TypeError m => m
  | OtherException m => m
  end.

(** [x[:-1]] on a Python value. *)
Definition py_drop_last (v : pyval) : exn + pyval :=
  match v with
  | VStr s => inr (VStr (String.substring 0 (String.length s - 1) s))
  | VBytes s => inr (VBytes (String.substring 0 (String.length s - 1) s))
  | VList l => inr (VList (removelast l))
  | _ => inl (TypeError "object is not subscriptable")
  end.

(** A Multicorn [Qual]. *)
Record Qual := {
  field_name : string;
  operator : string;
  value : pyval
}.

(** A page returned by one of the list operations: the items (each a
    dictionary) and the optional [nextToken]. *)
Record list_response := {
  resp_items : list (gmap string pyval);
  resp_nextToken : option string
}.

(** The answer of the shadow operations.  The payload, when present, is a
    stream object (always truthy) whose [read()] gives its bytes. *)
Record shadow_response := {
  resp_payload : option string
}.

Definition token_val (t : option string) : pyval :=
  match t with
  | Some s => VStr s
  | None => VNone
  end.

(** ** The clients and the host *)

Inductive api_op :=
| ListThings
| ListThingTypes
| ListThingGroups
| ListThingGroupsForThing
| CreateThing
| DeleteThing
| GetThingShadow
| UpdateThingShadow.

#[global] Instance api_op_eq_dec : EqDecision api_op.
Proof. solve_decision. Defined.

(** One recorded client call: the operation and its keyword arguments. *)
Record api_call := {
  call_op : api_op;
  call_args : gmap string pyval
}.

(** The boto3 clients ([core_client] and [data_client]).  An operation takes
    its keyword arguments and the backend's state, and either raises or
    returns. *)
Record client (St : Type) := {
  list_things : gmap string pyval → St → (exn + list_response) * St;
  list_thing_types : gmap string pyval → St → (exn + list_response) * St;
  list_thing_groups : gmap string pyval → St → (exn + list_response) * St;
  list_thing_groups_for_thing :
    gmap string pyval → St → (exn + list_response) * St;
  create_thing : gmap string pyval → St → (exn + unit) * St;
  delete_thing : gmap string pyval → St → (exn + unit) * St;
  get_thing_shadow : gmap string pyval → St → (exn + shadow_response) * St;
  update_thing_shadow : gmap string pyval → St → (exn + shadow_response) * St
}.

Arguments list_things {St}.
Arguments list_thing_types {St}.
Arguments list_thing_groups {St}.
Arguments list_thing_groups_for_thing {St}.
Arguments create_thing {St}.
Arguments delete_thing {St}.
Arguments get_thing_shadow {St}.
Arguments update_thing_shadow {St}.

Inductive log_level := WARNING | ERROR.

#[global] Instance log_level_eq_dec : EqDecision log_level.
Proof. solve_decision. Defined.

(** A line handed to [log_to_postgres]: the level, the format string and the
    values substituted into it. *)
Record log_entry := {
  log_lvl : log_level;
  log_format : string;
  log_params : list pyval
}.

(** Everything outside the wrapper: the backend behind the clients, the calls
    made so far, the lines logged so far and the rows handed to the host so
    far (each list in order of occurrence). *)
Record world (St : Type) := {
  backend : St;
  calls : list api_call;
  logs : list log_entry;
  rows : list (gmap string pyval)
}.

Arguments backend {St}.
Arguments calls {St}.
Arguments logs {St}.
Arguments rows {St}.

(** How a piece of Python code ends: it returns, it raises, the host aborts
    the statement ([log_to_postgres] at level [ERROR] does not return), or
    the model's loop budget is used up. *)
Inductive outcome (A : Type) :=
| Ret (a : A)
| Raise (e : exn)
| Abort
| OutOfFuel.

Arguments Ret {A}.
Arguments Raise {A}.
Arguments Abort {A}.
Arguments OutOfFuel {A}.

(** The instance attributes set by the constructor. *)
Record AIC_fdw := {
  MAX_RESULTS : Z;
  LIKE_WILDCARD : string;
  table_type : string;
  region : string;
  aws_access_key : string;
  aws_secret_key : string;
  endpoint_url : option string;
  _row_id_column : string
}.

(** ** Python code as a function of the world *)

Definition M (St A : Type) : Type := world St → outcome A * world St.

Definition ret {St A} (a : A) : M St A := fun w => (Ret a, w).

Definition bind {St A B} (m : M St A) (k : A → M St B) : M St B :=
  fun w =>
    match m w with
    | (Ret a, w') => k a w'
    | (Raise e, w') => (Raise e, w')
    | (Abort, w') => (Abort, w')
    | (OutOfFuel, w') => (OutOfFuel, w')
    end.

Declare Scope py_scope.
Delimit Scope py_scope with py.
Notation "x <- m ;; k" := (bind m (fun x => k))
  (at level 100, m at next level, right associativity) : py_scope.
Notation "m ;;; k" := (bind m (fun _ => k))
  (at level 100, right associativity) : py_scope.
#[local] Open Scope py_scope.

Definition raise {St A} (e : exn) : M St A := fun w => (Raise e, w).

Definition out_of_fuel {St A} : M St A := fun w => (OutOfFuel, w).

(** [try: body except Exception as e: handler e]. *)
Definition try_except {St A} (body : M St A) (handler : exn → M St A)
    : M St A :=
  fun w =>
    match body w with
    | (Raise e, w') => handler e w'
    | r => r
    end.

(** A fallible pure step run inside Python code. *)
Definition lift {St A} (r : exn + A) : M St A :=
  match r with
  | inl e => raise e
  | inr a => ret a
  end.

(** A client call: recorded with its keyword arguments, then answered by the
    backend. *)
Definition invoke {St R} (op : api_op)
    (f : gmap string pyval → St → (exn + R) * St)
    (kwargs : gmap string pyval) : M St R :=
  fun w =>
    let '(res, st') := f kwargs (backend w) in
    let w' := {| backend := st';
                 calls := calls w ++ [{| call_op := op; call_args := kwargs |}];
                 logs := logs w;
                 rows := rows w |} in
    match res with
    | inl e => (Raise e, w')
    | inr r => (Ret r, w')
    end.

(** [yield row]. *)
Definition yield {St} (row : gmap string pyval) : M St unit :=
  fun w =>
    (Ret tt, {| backend := backend w;
                calls := calls w;
                logs := logs w;
                rows := rows w ++ [row] |}).

(** Multicorn's [log_to_postgres]: the line is reported; at level [ERROR] the
    host aborts the running statement and control does not come back. *)
Definition log_to_postgres {St} (fmt : string) (params : list pyval)
    (lvl : log_level) : M St unit :=
  fun w =>
    let w' := {| backend := backend w;
                 calls := calls w;
                 logs := logs w
                         ++ [{| log_lvl := lvl;
                                log_format := fmt;
                                log_params := params |}];
                 rows := rows w |} in
    match lvl with
    | WARNING => (Ret tt, w')
    | ERROR => (Abort, w')
    end.

Fixpoint for_each {St A} (l : list A) (body : A → M St unit) : M St unit :=
  match l with
  | [] => ret tt
  | x :: l' => body x ;;; for_each l' body
  end.

(** A [for] loop whose body rebinds a local variable. *)
Fixpoint for_each_var {St A V} (l : list A) (v : V) (body : A → V → M St V)
    : M St V :=
  match l with
  | [] => ret v
  | x :: l' => v' <- body x v ;; for_each_var l' v' body
  end.

(** ** The wrapper *)

Section Wrapper.

Context {St : Type}.

(** The two boto3 clients of the instance. *)
Variable cl : client St.

(** [json.dumps], plain and with [default=str]; both may raise on a value
    that is not serialisable. *)
Variable dumps : pyval → exn + string.
Variable dumps_default_str : pyval → exn + string.

(** *** Construction *)

Definition row_id_of_table_type (tt : string) : option string :=
  if String.eqb "thing" (str_lower tt) then Some "thing_name"
  else if String.eqb "thing-type" (str_lower tt) then Some "thing_type_name"
  else if String.eqb "thing-group" (str_lower tt) then Some "thing_group_name"
  else None.

(** The keyword arguments handed to [boto3.client]: the credentials and the
    region, and the endpoint when one is set. *)
Definition client_args (ak sk reg : string) (endpoint_url : option string)
    : gmap string string :=
  let client_args : gmap string string :=
    <["region_name" := reg]>
      (<["aws_secret_access_key" := sk]> {[ "aws_access_key_id" := ak ]}) in
  match endpoint_url with
  | Some url =>
      if String.eqb url "" then client_args
      else <["endpoint_url" := url]> client_args
  | None => client_args
  end.

(** [AIC_fdw.__init__].  [boto3_client] stands for [boto3.client]: given the
    service name and the keyword arguments it builds the client or raises
    (an unknown region, a malformed endpoint, ...).  Nothing catches what it
    raises.  The clients it builds are the ones the methods are run with. *)
Definition __init__
    (boto3_client : string → gmap string string → exn + unit)
    (fdw_options : gmap string string) : M St AIC_fdw :=
  let tt := default "thing" (fdw_options !! "table_type") in
  reg <- match fdw_options !! "region" with
         | Some r => ret r
         | None =>
             log_to_postgres "Please set the AWS region" [] ERROR ;;; ret ""
         end ;;
  ak <- match fdw_options !! "aws_access_key" with
        | Some k => ret k
        | None =>
            log_to_postgres "Please set the AWS access key" [] ERROR ;;; ret ""
        end ;;
  sk <- match fdw_options !! "aws_secret_key" with
        | Some k => ret k
        | None =>
            log_to_postgres "Please set the AWS secret key" [] ERROR ;;; ret ""
        end ;;
  rid <- match row_id_of_table_type tt with
         | Some c => ret c
         | None =>
             log_to_postgres "This FDW does not support table_type {}"
               [VStr tt] ERROR ;;; ret ""
         end ;;
  lift (boto3_client "iot" (client_args ak sk reg (fdw_options !! "url"))) ;;;
  lift (boto3_client "iot-data"
          (client_args ak sk reg (fdw_options !! "url"))) ;;;
  ret {| MAX_RESULTS := 250;
         LIKE_WILDCARD := "%";
         table_type := tt;
         region := reg;
         aws_access_key := ak;
         aws_secret_key := sk;
         endpoint_url := fdw_options !! "url";
         _row_id_column := rid |}.

(** [rowid_column] *)
Definition rowid_column (self : AIC_fdw) : string := _row_id_column self.

(** Adds [key: v] to a row when the column is requested. *)
Definition update_if (columns : gset string) (key : string) (v : pyval)
    (row : gmap string pyval) : gmap string pyval :=
  if bool_decide (key ∈ columns) then <[key := v]> row else row.

(** The keyword arguments of a list call: the page-size cap, the cursor when
    there is one, and the filter when there is one. *)
Definition list_call_args (self : AIC_fdw) (nextToken : pyval)
    (filter_key : string) (filter : pyval) : gmap string pyval :=
  let call_args : gmap string pyval :=
    {[ "maxResults" := VInt (MAX_RESULTS self) ]} in
  let call_args :=
    if truthy nextToken then <["nextToken" := nextToken]> call_args
    else call_args in
  if truthy filter then <[filter_key := filter]> call_args else call_args.

(** The handler shared by the three scans. *)
Definition execute_handler (what : string) (e : exn) : M St unit :=
  match e with
  | ClientError m => log_to_postgres what [VStr m] ERROR
  | _ => log_to_postgres "Unknown error {}" [VStr (exn_str e)] ERROR
  end.

(** *** Scanning thing groups *)

(** The body of [for qual in quals] in [_execute_thing_group].  The LIKE
    branch tests [qual.field_name] for the wildcard, as the source does. *)
Definition thing_group_prefix_step (self : AIC_fdw)
    (qual : Qual) (thing_group_prefix : pyval) : M St pyval :=
  if String.eqb (str_lower (field_name qual)) "thing_group_name" then
    if String.eqb (operator qual) "=" then ret (value qual)
    else if (String.eqb (operator qual) "~~"
             && Nat.eqb (str_count (field_name qual) (LIKE_WILDCARD self)) 1
             && str_endswith (field_name qual) (LIKE_WILDCARD self))%bool
    then lift (py_drop_last (value qual))
    else ret thing_group_prefix
  else ret thing_group_prefix.

Definition thing_group_row (self : AIC_fdw) (columns : gset string)
    (thing_type : gmap string pyval) : gmap string pyval :=
  let thing_type_name := get thing_type "groupName" in
  let row : gmap string pyval := {[ _row_id_column self := thing_type_name ]} in
  update_if columns "thing_group_arn" (get thing_type "groupArn") row.

(** The [while True] loop of [_execute_thing_group]. *)
Fixpoint thing_group_pages (fuel : nat) (self : AIC_fdw)
    (columns : gset string) (thing_group_prefix nextToken : pyval)
    : M St unit :=
  match fuel with
  | O => out_of_fuel
  | S fuel' =>
      response <- invoke ListThingGroups (list_thing_groups cl)
                    (list_call_args self nextToken
                       "namePrefixFilter" thing_group_prefix) ;;
      let nextToken := token_val (resp_nextToken response) in
      for_each (resp_items response)
        (fun thing_type => yield (thing_group_row self columns thing_type)) ;;;
      if truthy nextToken
      then thing_group_pages fuel' self columns thing_group_prefix nextToken
      else ret tt
  end.

Definition _execute_thing_group (fuel : nat) (self : AIC_fdw)
    (quals : list Qual) (columns : gset string) : M St unit :=
  thing_group_prefix <-
    for_each_var quals VNone (thing_group_prefix_step self) ;;
  try_except
    (thing_group_pages fuel self columns thing_group_prefix VNone)
    (execute_handler "No thing groups from IoT core with ClientError {}").

(** *** Scanning thing types *)

(** The body of [for qual in quals] in [_execute_thing_type] and in
    [_execute_thing]. *)
Definition thing_type_name_step (qual : Qual) (thing_type_name : pyval)
    : pyval :=
  if String.eqb (str_lower (field_name qual)) "thing_type_name" then
    if String.eqb (operator qual) "=" then value qual else thing_type_name
  else thing_type_name.

Definition thing_type_name_of_quals (quals : list Qual) : pyval :=
  fold_left (fun acc qual => thing_type_name_step qual acc) quals VNone.

(** Adds [key: v] to a row when the column is requested; [v] is computed
    only then. *)
Definition update_if_m (columns : gset string) (key : string)
    (mv : M St pyval) (row : gmap string pyval) : M St (gmap string pyval) :=
  if bool_decide (key ∈ columns)
  then v <- mv ;; ret (<[key := v]> row)
  else ret row.

Definition dumps_val (d : pyval → exn + string) (v : pyval) : M St pyval :=
  s <- lift (d v) ;; ret (VStr s).

(** The body of [for thing_type in response.get('thingTypes')].  It rebinds
    the local [thing_type_name], the variable that also holds the filter. *)
Definition thing_type_item (self : AIC_fdw) (columns : gset string)
    (thing_type : gmap string pyval) (thing_type_name : pyval)
    : M St pyval :=
  let thing_type_name := get thing_type "thingTypeName" in
  let row : gmap string pyval := {[ _row_id_column self := thing_type_name ]} in
  let row := update_if columns "thing_type_arn"
               (get thing_type "thingTypeArn") row in
  row <- update_if_m columns "thing_type_properties"
           (dumps_val dumps (get thing_type "thingTypeProperties")) row ;;
  row <- update_if_m columns "thing_type_metadata"
           (dumps_val dumps_default_str (get thing_type "thingTypeMetadata"))
           row ;;
  yield row ;;;
  ret thing_type_name.

(** The [while True] loop of [_execute_thing_type]. *)
Fixpoint thing_type_pages (fuel : nat) (self : AIC_fdw)
    (columns : gset string) (thing_type_name nextToken : pyval)
    : M St unit :=
  match fuel with
  | O => out_of_fuel
  | S fuel' =>
      response <- invoke ListThingTypes (list_thing_types cl)
                    (list_call_args self nextToken
                       "thingTypeName" thing_type_name) ;;
      let nextToken := token_val (resp_nextToken response) in
      thing_type_name <-
        for_each_var (resp_items response) thing_type_name
          (thing_type_item self columns) ;;
      if truthy nextToken
      then thing_type_pages fuel' self columns thing_type_name nextToken
      else ret tt
  end.

Definition _execute_thing_type (fuel : nat) (self : AIC_fdw)
    (quals : list Qual) (columns : gset string) : M St unit :=
  let thing_type_name := thing_type_name_of_quals quals in
  try_except
    (thing_type_pages fuel self columns thing_type_name VNone)
    (execute_handler "No thing types from IoT core with ClientError {}").

(** *** Scanning things *)

(** The [while nextToken] loop of [_thing_groups_for_thing]. *)
Fixpoint thing_groups_more (fuel : nat) (self : AIC_fdw) (thing : pyval)
    (groups : list (gmap string pyval)) (nextToken : pyval) {struct fuel}
    : M St (list (gmap string pyval)) :=
  if truthy nextToken then
    match fuel with
    | O => out_of_fuel
    | S fuel' =>
        response <- invoke ListThingGroupsForThing
                      (list_thing_groups_for_thing cl)
                      (<["nextToken" := nextToken]>
                         (<["maxResults" := VInt (MAX_RESULTS self)]>
                            {[ "thingName" := thing ]})) ;;
        thing_groups_more fuel' self thing
          (groups ++ resp_items response)
          (token_val (resp_nextToken response))
    end
  else ret groups.

Definition _thing_groups_for_thing (fuel : nat) (self : AIC_fdw)
    (thing : pyval) : M St pyval :=
  try_except
    (response <- invoke ListThingGroupsForThing
                   (list_thing_groups_for_thing cl)
                   (<["maxResults" := VInt (MAX_RESULTS self)]>
                      {[ "thingName" := thing ]}) ;;
     groups <- thing_groups_more fuel self thing (resp_items response)
                 (token_val (resp_nextToken response)) ;;
     dumps_val dumps (VList (VDict <$> groups)))
    (fun e =>
       match e with
       | ClientError m =>
           log_to_postgres
             "No thing groups from IoT core for thing {} with ClientError {}"
             [thing; VStr m] WARNING ;;; ret VNone
       | _ =>
           log_to_postgres "Unknown error {}" [VStr (exn_str e)] ERROR ;;;
           ret VNone
       end).

Definition _thing_shadow_data (thing : pyval) : M St pyval :=
  try_except
    (shadow <- invoke GetThingShadow (get_thing_shadow cl)
                 {[ "thingName" := thing ]} ;;
     match resp_payload shadow with
     | Some data => ret (VBytes data)
     | None => ret VNone
     end)
    (fun e =>
       match e with
       | ClientError m =>
           log_to_postgres
             "No data in IoT shadow for thing {} with ClientError {}"
             [thing; VStr m] WARNING ;;; ret VNone
       | _ =>
           log_to_postgres "Unknown error {}" [VStr (exn_str e)] ERROR ;;;
           ret VNone
       end).

(** The row built for one item of [response.get('things')]. *)
Definition thing_row (fuel : nat) (self : AIC_fdw) (columns : gset string)
    (thing : gmap string pyval) : M St (gmap string pyval) :=
  let thing_name := get thing "thingName" in
  let row : gmap string pyval := {[ _row_id_column self := thing_name ]} in
  row <- update_if_m columns "thing_groups"
           (_thing_groups_for_thing fuel self thing_name) row ;;
  let row := update_if columns "thing_type_name"
               (get thing "thingTypeName") row in
  let row := update_if columns "thing_arn" (get thing "thingArn") row in
  let row := update_if columns "thing_version" (get thing "version") row in
  row <- update_if_m columns "thing_attributes"
           (dumps_val dumps (get thing "attributes")) row ;;
  update_if_m columns "thing_shadow_data"
    (_thing_shadow_data thing_name) row.

(** The [for thing in response.get('things')] loop. *)
Definition thing_rows (fuel : nat) (self : AIC_fdw) (columns : gset string)
    (things : list (gmap string pyval)) : M St unit :=
  for_each things
    (fun thing => row <- thing_row fuel self columns thing ;; yield row).

(** The [while True] loop of [_execute_thing]. *)
Fixpoint thing_pages (fuel : nat) (self : AIC_fdw)
    (columns : gset string) (thing_type_name nextToken : pyval)
    : M St unit :=
  match fuel with
  | O => out_of_fuel
  | S fuel' =>
      response <- invoke ListThings (list_things cl)
                    (list_call_args self nextToken
                       "thingTypeName" thing_type_name) ;;
      let nextToken := token_val (resp_nextToken response) in
      thing_rows fuel self columns (resp_items response) ;;;
      if truthy nextToken
      then thing_pages fuel' self columns thing_type_name nextToken
      else ret tt
  end.

Definition _execute_thing (fuel : nat) (self : AIC_fdw)
    (quals : list Qual) (columns : gset string) : M St unit :=
  let thing_type_name := thing_type_name_of_quals quals in
  try_except
    (thing_pages fuel self columns thing_type_name VNone)
    (execute_handler "No things from IoT core with ClientError {}").

Definition execute (fuel : nat) (self : AIC_fdw)
    (quals : list Qual) (columns : gset string) : M St unit :=
  if String.eqb "thing" (str_lower (table_type self))
  then _execute_thing fuel self quals columns
  else if String.eqb "thing-type" (str_lower (table_type self))
  then _execute_thing_type fuel self quals columns
  else if String.eqb "thing-group" (str_lower (table_type self))
  then _execute_thing_group fuel self quals columns
  else ret tt.

(** *** Mutations *)

(** What a mutation entry point returns: a mapping, or Python's [None]. *)
Definition _insert_thing_type (values : gmap string pyval)
    : M St (option (gmap string pyval)) :=
  raise NotImplementedError.

Definition _insert_thing (values : gmap string pyval)
    : M St (option (gmap string pyval)) :=
  let new_thing := get values "thing_name" in
  let new_thing_type := get values "thing_type" in
  try_except
    (if truthy new_thing_type
     then invoke CreateThing (create_thing cl)
            (<["thingTypeName" := new_thing_type]>
               {[ "thingName" := new_thing ]})
     else invoke CreateThing (create_thing cl)
            {[ "thingName" := new_thing ]})
    (fun e =>
       match e with
       | ClientError m =>
           log_to_postgres
             "Insert failed in IoT shadow for thing {} with ClientError {}"
             [new_thing; VStr m] ERROR
       | _ => log_to_postgres "Unknown error {}" [VStr (exn_str e)] ERROR
       end) ;;;
  ret (Some values).

Definition insert (self : AIC_fdw) (values : gmap string pyval)
    : M St (option (gmap string pyval)) :=
  if String.eqb "thing" (str_lower (table_type self))
  then _insert_thing values
  else if String.eqb "thing-type" (str_lower (table_type self))
  then _insert_thing_type values
  else ret None.

Definition _update_thing_type (rowid : pyval) (newvalues : gmap string pyval)
    : M St (option (gmap string pyval)) :=
  raise NotImplementedError.

Definition _update_thing (rowid : pyval) (newvalues : gmap string pyval)
    : M St (option (gmap string pyval)) :=
  newvalues <-
    (if bool_decide (is_Some (newvalues !! "thing_shadow_data"))
     then
       try_except
         (shadow <- invoke UpdateThingShadow (update_thing_shadow cl)
                      (<["payload" := get newvalues "thing_shadow_data"]>
                         {[ "thingName" := rowid ]}) ;;
          match resp_payload shadow with
          | Some data => ret (<["thing_shadow_data" := VBytes data]> newvalues)
          | None => ret newvalues
          end)
         (fun e =>
            match e with
            | ClientError m =>
                log_to_postgres
                  "Data update failed in IoT shadow for thing {} with ClientError {}"
                  [rowid; VStr m] ERROR ;;; ret newvalues
            | _ =>
                log_to_postgres "Unknown error {}" [VStr (exn_str e)] ERROR ;;;
                ret newvalues
            end)
     else ret newvalues) ;;
  ret (Some newvalues).

Definition update (self : AIC_fdw) (rowid : pyval)
    (newvalues : gmap string pyval) : M St (option (gmap string pyval)) :=
  if String.eqb "thing" (str_lower (table_type self))
  then _update_thing rowid newvalues
  else if String.eqb "thing-type" (str_lower (table_type self))
  then _update_thing_type rowid newvalues
  else ret None.

Definition _delete_thing_type (rowid : pyval)
    : M St (option (gmap string pyval)) :=
  raise NotImplementedError.

Definition _delete_thing (rowid : pyval)
    : M St (option (gmap string pyval)) :=
  try_except
    (invoke DeleteThing (delete_thing cl) {[ "thingName" := rowid ]})
    (fun e =>
       match e with
       | ClientError m =>
           log_to_postgres
             "Delete failed in IoT shadow for thing {} with ClientError {}"
             [rowid; VStr m] ERROR
       | _ => log_to_postgres "Unknown error {}" [VStr (exn_str e)] ERROR
       end) ;;;
  ret None.

Definition delete (self : AIC_fdw) (rowid : pyval)
    : M St (option (gmap string pyval)) :=
  if String.eqb "thing" (str_lower (table_type self))
  then _delete_thing rowid
  else if String.eqb "thing-type" (str_lower (table_type self))
  then _delete_thing_type rowid
  else ret None.

End Wrapper.

Arguments __init__ {St} boto3_client fdw_options.

(** ** Specifications on traces *)

(** [emits Prow Pcall m]: whatever the world, running [m] only appends to the
    yielded rows and to the recorded calls; every row it appends satisfies
    [Prow] and every call it appends satisfies [Pcall]. *)
Definition emits {St A} (Prow : gmap string pyval → Prop)
    (Pcall : api_call → Prop) (m : M St A) : Prop :=
  ∀ w, ∃ rs cs,
    rows (m w).2 = rows w ++ rs ∧ calls (m w).2 = calls w ++ cs
    ∧ Forall Prow rs ∧ Forall Pcall cs.

(** Between [w] and [w'] nothing was logged at level [ERROR]. *)
Definition no_error_logged {St} (w w' : world St) : Prop :=
  ∃ ls, logs w' = logs w ++ ls ∧ Forall (λ l, log_lvl l = WARNING) ls.

(** The instance was produced by the constructor. *)
Definition constructed (St : Type) (self : AIC_fdw) : Prop :=
  ∃ boto3_client fdw_options (w w' : world St),
    __init__ boto3_client fdw_options w = (Ret self, w').

(** A world in which nothing has happened yet. *)
Definition fresh_world {St} (st : St) : world St :=
  {| backend := st; calls := []; logs := []; rows := [] |}.

(** ** A scripted backend *)

(** The backend used to run the wrapper on concrete inputs: the list
    operations hand out the scripted pages one after the other, the shadow
    operations follow a table from thing name to scripted answer. *)
Record stub_state := {
  stub_pages : list list_response;
  stub_shadows : gmap string (exn + option string)
}.

Definition stub_list (kwargs : gmap string pyval) (st : stub_state)
    : (exn + list_response) * stub_state :=
  match stub_pages st with
  | [] => (inl (OtherException "script exhausted"), st)
  | p :: ps => (inr p, {| stub_pages := ps; stub_shadows := stub_shadows st |})
  end.

Definition stub_no_groups (kwargs : gmap string pyval) (st : stub_state)
    : (exn + list_response) * stub_state :=
  (inr {| resp_items := []; resp_nextToken := None |}, st).

Definition stub_done (kwargs : gmap string pyval) (st : stub_state)
    : (exn + unit) * stub_state :=
  (inr tt, st).

Definition stub_get_shadow (kwargs : gmap string pyval) (st : stub_state)
    : (exn + shadow_response) * stub_state :=
  match get kwargs "thingName" with
  | VStr n =>
      match stub_shadows st !! n with
      | Some (inl e) => (inl e, st)
      | Some (inr p) => (inr {| resp_payload := p |}, st)
      | None => (inl (ClientError "ResourceNotFoundException"), st)
      end
  | _ => (inl (OtherException "ParamValidationError"), st)
  end.

Definition stub_update_shadow (kwargs : gmap string pyval) (st : stub_state)
    : (exn + shadow_response) * stub_state :=
  match get kwargs "thingName", get kwargs "payload" with
  | VStr n, VStr doc =>
      (inr {| resp_payload := Some doc |},
       {| stub_pages := stub_pages st;
          stub_shadows := <[n := inr (Some doc)]> (stub_shadows st) |})
  | _, _ => (inl (OtherException "ParamValidationError"), st)
  end.

Definition stub_client : client stub_state :=
  {| list_things := stub_list;
     list_thing_types := stub_list;
     list_thing_groups := stub_list;
     list_thing_groups_for_thing := stub_no_groups;
     create_thing := stub_done;
     delete_thing := stub_done;
     get_thing_shadow := stub_get_shadow;
     update_thing_shadow := stub_update_shadow |}.

Definition stub_dumps (v : pyval) : exn + string := inr "json".

(** A [boto3.client] that accepts every set of arguments. *)
Definition stub_boto3 (service : string) (kwargs : gmap string string)
    : exn + unit :=
  inr tt.

Definition stub_options (kind : string) : gmap string string :=
  <["table_type" := kind]>
    (<["region" := "eu-central-1"]>
       (<["aws_access_key" := "AK"]> {[ "aws_secret_key" := "SK" ]})).

(** The instance the constructor builds for a table kind. *)
Definition stub_self (kind : string) : AIC_fdw :=
  {| MAX_RESULTS := 250;
     LIKE_WILDCARD := "%";
     table_type := kind;
     region := "eu-central-1";
     aws_access_key := "AK";
     aws_secret_key := "SK";
     endpoint_url := None;
     _row_id_column := default "" (row_id_of_table_type kind) |}.

Definition stub_world (pages : list list_response)
    (shadows : gmap string (exn + option string)) : world stub_state :=
  fresh_world {| stub_pages := pages; stub_shadows := shadows |}.

Definition expected_group_rows (self : AIC_fdw) (columns : gset string)
    (pages : list list_response) : list (gmap string pyval) :=
  p ← pages; thing_group_row self columns <$> resp_items p.

(** The filter [_execute_thing_group] derives when no LIKE predicate fires:
    the value of the last equality predicate on the group name. *)
Definition thing_group_prefix_of_quals (quals : list Qual) : pyval :=
  fold_left
    (fun acc qual =>
       if (String.eqb (str_lower (field_name qual)) "thing_group_name"
           && String.eqb (operator qual) "=")%bool
       then value qual else acc)
    quals VNone.

(** A page of [n] groups named [g<first>], [g<first+1>], ... *)
Definition group_page (first n : nat) (cursor : option string)
    : list_response :=
  {| resp_items :=
       (λ i, {[ "groupName" := VStr ("g" +:+ pretty i) ]}) <$> seq first n;
     resp_nextToken := cursor |}.

Definition three_pages : list list_response :=
  [group_page 0 250 (Some "page2");
   group_page 250 250 (Some "page3");
   group_page 500 10 None].

(** [returns Post m]: whenever [m] returns a value, the value satisfies
    [Post]. *)
Definition returns {St A} (Post : A → Prop) (m : M St A) : Prop :=
  ∀ w a w', m w = (Ret a, w') → Post a.

(** A row that has an entry for the identity column [rid] and, besides it,
    entries for requested columns only. *)
Definition row_within (rid : string) (columns : gset string)
    (r : gmap string pyval) : Prop :=
  is_Some (r !! rid) ∧ ∀ k, k ≠ rid → k ∉ columns → r !! k = None.

(** An equality predicate on the type-name field. *)
Definition type_name_equality (q : Qual) : bool :=
  (String.eqb (str_lower (field_name q)) "thing_type_name"
   && String.eqb (operator q) "=")%bool.

(** ** Concrete inputs *)

Definition like_abc : Qual :=
  {| field_name := "thing_group_name"; operator := "~~"; value := VStr "abc%" |}.

Definition two_type_pages : list list_response :=
  [{| resp_items := [{[ "thingTypeName" := VStr "A" ]};
                     {[ "thingTypeName" := VStr "B" ]}];
      resp_nextToken := Some "t1" |};
   {| resp_items := [{[ "thingTypeName" := VStr "C" ]}];
      resp_nextToken := None |}].

Definition typed_device : gmap string pyval :=
  <["thing_type_name" := VStr "sensor"]> {[ "thing_name" := VStr "dev1" ]}.

Definition device (name : string) : gmap string pyval :=
  {[ "thingName" := VStr name ]}.

Definition two_devices : list list_response :=
  [{| resp_items := [device "A"; device "B"]; resp_nextToken := None |}].

Definition type_equals (v : string) : Qual :=
  {| field_name := "thing_type_name"; operator := "="; value := VStr v |}.

(** Keyword arguments for [boto3.client] that hold the two keys and the
    region, the endpoint exactly when a non-empty one is set, and nothing
    else. *)
Definition credentials_kwargs (ak sk reg : string)
    (endpoint_url : option string) (kw : gmap string string) : Prop :=
  kw !! "aws_access_key_id" = Some ak
  ∧ kw !! "aws_secret_access_key" = Some sk
  ∧ kw !! "region_name" = Some reg
  ∧ kw !! "endpoint_url"
    = match endpoint_url with
      | Some url => if String.eqb url "" then None else Some url
      | None => None
      end
  ∧ ∀ k, k ≠ "aws_access_key_id" → k ≠ "aws_secret_access_key" →
         k ≠ "region_name" → k ≠ "endpoint_url" → kw !! k = None.

(** ** The schema and the path keys *)

(** Multicorn's [ColumnDefinition] and [TableDefinition], with the fields
    the wrapper fills in. *)
Record ColumnDefinition := {
  column_name : string;
  type_name : string
}.

Record TableDefinition := {
  table_name : string;
  table_schema : string;
  table_options : gmap string string;
  table_columns : list ColumnDefinition
}.

(** [AIC_fdw.import_schema].  Of its arguments only [schema] is used. *)
Definition import_schema (schema : string) : list TableDefinition :=
  [{| table_name := schema +:+ "_things";
      table_schema := schema;
      table_options := {[ "table_type" := "thing" ]};
      table_columns :=
        [{| column_name := "thing_name"; type_name := "text" |};
         {| column_name := "thing_type_name"; type_name := "text" |};
         {| column_name := "thing_arn"; type_name := "text" |};
         {| column_name := "thing_version"; type_name := "integer" |};
         {| column_name := "thing_groups"; type_name := "jsonb" |};
         {| column_name := "thing_attributes"; type_name := "jsonb" |};
         {| column_name := "thing_shadow_data"; type_name := "jsonb" |}] |};
   {| table_name := schema +:+ "_thing_types";
      table_schema := schema;
      table_options := {[ "table_type" := "thing-type" ]};
      table_columns :=
        [{| column_name := "thing_type_name"; type_name := "text" |};
         {| column_name := "thing_type_arn"; type_name := "text" |};
         {| column_name := "thing_type_properties"; type_name := "jsonb" |};
         {| column_name := "thing_type_metadata"; type_name := "jsonb" |}] |};
   {| table_name := schema +:+ "_thing_groups";
      table_schema := schema;
      table_options := {[ "table_type" := "thing-group" ]};
      table_columns :=
        [{| column_name := "thing_group_name"; type_name := "text" |};
         {| column_name := "thing_group_arn"; type_name := "text" |}] |}].

(** [get_path_keys]: one key, the row-id column, expected to select one
    row. *)
Definition get_path_keys (self : AIC_fdw) : list (list string * Z) :=
  [([_row_id_column self], 1)].

(** ** Further specifications on traces *)

(** A call a scan may make: a list operation with the page-size cap of 250,
    or a shadow read that names only the thing. *)
Definition read_call (c : api_call) : Prop :=
  match call_op c with
  | ListThings | ListThingTypes | ListThingGroups | ListThingGroupsForThing =>
      call_args c !! "maxResults" = Some (VInt 250)
  | GetThingShadow => ∃ thing, call_args c = {[ "thingName" := thing ]}
  | CreateThing | DeleteThing | UpdateThingShadow => False
  end.

(** [never_raises m]: no Python exception escapes from [m]. *)
Definition never_raises {St A} (m : M St A) : Prop :=
  ∀ w e, (m w).1 ≠ Raise e.

(** The keyword arguments of the group-membership call for [thing]. *)
Definition membership_args (self : AIC_fdw) (thing : pyval)
    : gmap string pyval :=
  <["maxResults" := VInt (MAX_RESULTS self)]> {[ "thingName" := thing ]}.

(** An equality predicate on the group-name field. *)
Definition group_name_equality (q : Qual) : bool :=
  (String.eqb (str_lower (field_name q)) "thing_group_name"
   && String.eqb (operator q) "=")%bool.

(** The row of a thing when none of the columns that need a further call or
    a serialisation is requested. *)
Definition thing_plain_row (self : AIC_fdw) (columns : gset string)
    (thing : gmap string pyval) : gmap string pyval :=
  update_if columns "thing_version" (get thing "version")
    (update_if columns "thing_arn" (get thing "thingArn")
       (update_if columns "thing_type_name" (get thing "thingTypeName")
          {[ _row_id_column self := get thing "thingName" ]})).

(** ** A backend that only hands out pages *)

(** The list operations of things, thing types and thing groups hand out
    the pages of the script one after the other; a thing belongs to no group
    and has no shadow; writes are accepted. *)
Definition paging_list (kwargs : gmap string pyval) (st : list list_response)
    : (exn + list_response) * list list_response :=
  match st with
  | [] => (inl (OtherException "script exhausted"), st)
  | p :: ps => (inr p, ps)
  end.

Definition paging_client : client (list list_response) :=
  {| list_things := paging_list;
     list_thing_types := paging_list;
     list_thing_groups := paging_list;
     list_thing_groups_for_thing :=
       λ _ st, (inr {| resp_items := []; resp_nextToken := None |}, st);
     create_thing := λ _ st, (inr tt, st);
     delete_thing := λ _ st, (inr tt, st);
     get_thing_shadow := λ _ st, (inr {| resp_payload := None |}, st);
     update_thing_shadow := λ _ st, (inr {| resp_payload := None |}, st) |}.

(** The calls of the three list operations that the scans page through. *)
Definition is_primary_list (c : api_call) : bool :=
  match call_op c with
  | ListThings | ListThingTypes | ListThingGroups => true
  | _ => false
  end.

(** The list operation of the instance's kind. *)
Definition list_operation_of_kind (self : AIC_fdw) : api_op :=
  if String.eqb "thing" (str_lower (table_type self)) then ListThings
  else if String.eqb "thing-type" (str_lower (table_type self))
  then ListThingTypes
  else ListThingGroups.

(** [cursor_chain op tok pages ls]: the calls [ls] are one call of [op] per
    page, each with the page-size cap 250; the first carries the cursor
    [tok] (none when [tok] is falsy), each later one the cursor of the page
    before it. *)
Fixpoint cursor_chain (op : api_op) (tok : pyval)
    (pages : list list_response) (ls : list api_call) : Prop :=
  match pages, ls with
  | [], [] => True
  | p :: ps, c :: ls' =>
      call_op c = op
      ∧ call_args c !! "maxResults" = Some (VInt 250)
      ∧ call_args c !! "nextToken" = (if truthy tok then Some tok else None)
      ∧ cursor_chain op (token_val (resp_nextToken p)) ps ls'
  | _, _ => False
  end.

(** [quiet n m]: in every world [m] returns, leaves the backend and the log
    as they are, makes none of the paged list calls and yields [n] rows. *)
Definition quiet {St A} (n : nat) (m : M St A) : Prop :=
  ∀ w, ∃ a cs rs,
    m w = (Ret a, {| backend := backend w; calls := calls w ++ cs;
                     logs := logs w; rows := rows w ++ rs |})
    ∧ List.filter is_primary_list cs = [] ∧ length rs = n.

(** A page of [n] items named [x<first>], [x<first+1>], ... under [key]. *)
Definition item_page (key : string) (first n : nat) (cursor : option string)
    : list_response :=
  {| resp_items := (λ i, {[ key := VStr ("x" +:+ pretty i) ]}) <$> seq first n;
     resp_nextToken := cursor |}.

(** Three pages of 250, 250 and 10 items chained by cursors. *)
Definition three_pages_of (key : string) : list list_response :=
  [item_page key 0 250 (Some "page2");
   item_page key 250 250 (Some "page3");
   item_page key 500 10 None].

Definition all_thing_columns : gset string :=
  {[ "thing_name"; "thing_type_name"; "thing_arn"; "thing_version";
     "thing_groups"; "thing_attributes"; "thing_shadow_data" ]}.

Definition all_thing_type_columns : gset string :=
  {[ "thing_type_name"; "thing_type_arn"; "thing_type_properties";
     "thing_type_metadata" ]}.

Definition all_thing_group_columns : gset string :=
  {[ "thing_group_name"; "thing_group_arn" ]}.

(** ** A backend that follows a script of answers *)

(** Every list operation takes the next scripted answer, a page or an
    exception; the write and shadow operations answer without content. *)
Definition script_list (kwargs : gmap string pyval)
    (st : list (exn + list_response))
    : (exn + list_response) * list (exn + list_response) :=
  match st with
  | [] => (inl (OtherException "script exhausted"), st)
  | a :: st' => (a, st')
  end.

Definition script_client : client (list (exn + list_response)) :=
  {| list_things := script_list;
     list_thing_types := script_list;
     list_thing_groups := script_list;
     list_thing_groups_for_thing := script_list;
     create_thing := λ _ st, (inr tt, st);
     delete_thing := λ _ st, (inr tt, st);
     get_thing_shadow := λ _ st, (inr {| resp_payload := None |}, st);
     update_thing_shadow := λ _ st, (inr {| resp_payload := None |}, st) |}.

(** A backend whose write operations are refused. *)
Definition refusing_client : client unit :=
  {| list_things := λ _ st, (inl (ClientError "AccessDenied"), st);
     list_thing_types := λ _ st, (inl (ClientError "AccessDenied"), st);
     list_thing_groups := λ _ st, (inl (ClientError "AccessDenied"), st);
     list_thing_groups_for_thing :=
       λ _ st, (inl (ClientError "AccessDenied"), st);
     create_thing := λ _ st, (inl (ClientError "AccessDenied"), st);
     delete_thing := λ _ st, (inl (ClientError "AccessDenied"), st);
     get_thing_shadow := λ _ st, (inl (ClientError "AccessDenied"), st);
     update_thing_shadow := λ _ st, (inl (ClientError "AccessDenied"), st) |}.

Definition membership_page (names : list string) (cursor : option string)
    : list_response :=
  {| resp_items := (λ n, {[ "groupName" := VStr n ]}) <$> names;
     resp_nextToken := cursor |}.

Definition membership_script : list (exn + list_response) :=
  [inr (membership_page ["a"] (Some "n1")); inr (membership_page ["b"] None)].

Definition failing_membership_script : list (exn + list_response) :=
  [inr (membership_page ["a"] (Some "n1")); inl (ClientError "Throttling")].

Definition failing_group_script : list (exn + list_response) :=
  [inr (group_page 0 2 (Some "n1")); inl (ClientError "Throttling")].

Definition device_script : list (exn + list_response) :=
  [inr {| resp_items := [device "A"]; resp_nextToken := Some "n1" |};
   inr {| resp_items := [device "B"]; resp_nextToken := None |}].

Definition group_equals (v : string) : Qual :=
  {| field_name := "Thing_Group_Name"; operator := "="; value := VStr v |}.

(** ** Facts about the string methods *)

Lemma lower_ascii_percent (c : ascii) :
  (if ascii_dec "%" (lower_ascii c) then true else false)
  = (if ascii_dec "%" c then true else false).
Proof.
  destruct c as [[] [] [] [] [] [] [] []]; vm_compute; reflexivity.
Qed.

Lemma prefix_percent (c : ascii) (s : string) :
  String.prefix "%" (String c s) = (if ascii_dec "%" c then true else false).
Proof.
  change (String.prefix "%" (String c s))
    with (if ascii_dec "%" c then String.prefix "" s else false).
  destruct (ascii_dec "%" c); [destruct s|]; reflexivity.
Qed.

Lemma str_count_percent_lower (s : string) :
  str_count (str_lower s) "%" = str_count s "%".
Proof.
  unfold str_count.
  induction s as [|c s IH]; [reflexivity|].
  change (str_lower (String c s)) with (String (lower_ascii c) (str_lower s)).
  cbn [str_count_aux].
  rewrite !prefix_percent, lower_ascii_percent.
  change (String.length "%" - 1)%nat with 0%nat.
  rewrite IH. reflexivity.
Qed.

(** A field name that lowers to [thing_group_name] holds no wildcard. *)
Lemma group_field_has_no_wildcard (f : string) :
  String.eqb (str_lower f) "thing_group_name" = true →
  Nat.eqb (str_count f "%") 1 = false.
Proof.
  intros H. apply String.eqb_eq in H.
  rewrite <- str_count_percent_lower, H. reflexivity.
Qed.

(** ** Facts about the constructor *)

Lemma row_id_of_table_type_cases (tt : string) :
  (str_lower tt = "thing"
   ∧ row_id_of_table_type tt = Some "thing_name")
  ∨ (str_lower tt = "thing-type"
     ∧ row_id_of_table_type tt = Some "thing_type_name")
  ∨ (str_lower tt = "thing-group"
     ∧ row_id_of_table_type tt = Some "thing_group_name")
  ∨ (str_lower tt ≠ "thing" ∧ str_lower tt ≠ "thing-type"
     ∧ str_lower tt ≠ "thing-group" ∧ row_id_of_table_type tt = None).
Proof.
  unfold row_id_of_table_type.
  destruct (String.eqb "thing" (str_lower tt)) eqn:H1.
  { apply String.eqb_eq in H1. left. by rewrite <- H1. }
  destruct (String.eqb "thing-type" (str_lower tt)) eqn:H2.
  { apply String.eqb_eq in H2. right; left. by rewrite <- H2. }
  destruct (String.eqb "thing-group" (str_lower tt)) eqn:H3.
  { apply String.eqb_eq in H3. right; right; left. by rewrite <- H3. }
  apply String.eqb_neq in H1, H2, H3. right; right; right. by repeat split.
Qed.

Lemma constructed_inv (St : Type) (self : AIC_fdw) :
  constructed St self →
  MAX_RESULTS self = 250 ∧ LIKE_WILDCARD self = "%"
  ∧ row_id_of_table_type (table_type self) = Some (_row_id_column self).
Proof.
  intros (boto3_client & opts & w & w' & H).
  unfold __init__, bind, ret, lift, raise, log_to_postgres in H.
  destruct (opts !! "region"); [|discriminate].
  destruct (opts !! "aws_access_key"); [|discriminate].
  destruct (opts !! "aws_secret_key"); [|discriminate].
  destruct (row_id_of_table_type (default "thing" (opts !! "table_type")))
    as [rid|] eqn:Hrid; [|discriminate].
  destruct (boto3_client "iot" _) as [?|[]]; [discriminate|].
  destruct (boto3_client "iot-data" _) as [?|[]]; [discriminate|].
  injection H as <- _. cbn. auto.
Qed.

Lemma row_id_thing (self : AIC_fdw) :
  row_id_of_table_type (table_type self) = Some (_row_id_column self) →
  String.eqb "thing" (str_lower (table_type self)) = true →
  _row_id_column self = "thing_name".
Proof.
  unfold row_id_of_table_type. intros H Hk. rewrite Hk in H. congruence.
Qed.

Lemma row_id_thing_group (self : AIC_fdw) :
  row_id_of_table_type (table_type self) = Some (_row_id_column self) →
  str_lower (table_type self) = "thing-group" →
  _row_id_column self = "thing_group_name".
Proof.
  unfold row_id_of_table_type. intros H Hk. rewrite Hk in H.
  cbn in H. congruence.
Qed.

Lemma stub_self_constructed (kind : string) :
  is_Some (row_id_of_table_type kind) →
  constructed stub_state (stub_self kind).
Proof.
  intros [rid Hrid].
  exists stub_boto3, (stub_options kind), (stub_world [] ∅), (stub_world [] ∅).
  assert (stub_options kind !! "table_type" = Some kind) as Ht
    by (unfold stub_options; by simplify_map_eq).
  assert (stub_options kind !! "region" = Some "eu-central-1") as Hr
    by (unfold stub_options; by simplify_map_eq).
  assert (stub_options kind !! "aws_access_key" = Some "AK") as Ha
    by (unfold stub_options; by simplify_map_eq).
  assert (stub_options kind !! "aws_secret_key" = Some "SK") as Hs
    by (unfold stub_options; by simplify_map_eq).
  assert (stub_options kind !! "url" = None) as Hu
    by (unfold stub_options; by simplify_map_eq).
  unfold __init__, bind, ret.
  rewrite Ht, Hr, Ha, Hs, Hu. cbn [default from_option id]. rewrite Hrid.
  unfold stub_self. rewrite Hrid. reflexivity.
Qed.

(** ** The trace logic *)

Section Traces.

Context {St : Type}.
Implicit Types (Prow : gmap string pyval → Prop) (Pcall : api_call → Prop).

Lemma emits_nothing Prow Pcall {A} (m : M St A) :
  (∀ w, (m w).2 = w) → emits Prow Pcall m.
Proof.
  intros H w. exists [], []. rewrite H, !app_nil_r. auto.
Qed.

Lemma emits_ret Prow Pcall {A} (a : A) : emits Prow Pcall (ret a : M St A).
Proof. by apply emits_nothing. Qed.

Lemma emits_raise Prow Pcall {A} (e : exn) :
  emits Prow Pcall (raise e : M St A).
Proof. by apply emits_nothing. Qed.

Lemma emits_out_of_fuel Prow Pcall {A} :
  emits Prow Pcall (out_of_fuel : M St A).
Proof. by apply emits_nothing. Qed.

Lemma emits_lift Prow Pcall {A} (r : exn + A) :
  emits Prow Pcall (lift r : M St A).
Proof. destruct r; [apply emits_raise | apply emits_ret]. Qed.

Lemma emits_log Prow Pcall fmt params lvl :
  emits Prow Pcall (log_to_postgres fmt params lvl : M St unit).
Proof.
  intros w. exists [], []. unfold log_to_postgres.
  destruct lvl; cbn; rewrite !app_nil_r; auto.
Qed.

Lemma emits_yield Prow Pcall row :
  Prow row → emits Prow Pcall (yield row : M St unit).
Proof.
  intros H w. exists [row], []. cbn. rewrite app_nil_r. auto.
Qed.

Lemma emits_invoke Prow Pcall {R} op
    (f : gmap string pyval → St → (exn + R) * St) kwargs :
  Pcall {| call_op := op; call_args := kwargs |} →
  emits Prow Pcall (invoke op f kwargs).
Proof.
  intros H w. exists [], [{| call_op := op; call_args := kwargs |}].
  unfold invoke. destruct (f kwargs (backend w)) as [[e|r] st'];
    cbn; rewrite app_nil_r; auto.
Qed.

Lemma emits_seq Prow Pcall (w1 w2 w3 : world St) rs1 cs1 rs2 cs2 :
  rows w2 = rows w1 ++ rs1 → calls w2 = calls w1 ++ cs1 →
  rows w3 = rows w2 ++ rs2 → calls w3 = calls w2 ++ cs2 →
  Forall Prow rs1 → Forall Pcall cs1 → Forall Prow rs2 → Forall Pcall cs2 →
  ∃ rs cs, rows w3 = rows w1 ++ rs ∧ calls w3 = calls w1 ++ cs
           ∧ Forall Prow rs ∧ Forall Pcall cs.
Proof.
  intros -> -> -> -> ? ? ? ?. exists (rs1 ++ rs2), (cs1 ++ cs2).
  rewrite !app_assoc. repeat split; try done; by apply Forall_app.
Qed.

Lemma emits_bind Prow Pcall {A B} (m : M St A) (k : A → M St B) :
  emits Prow Pcall m → (∀ a, emits Prow Pcall (k a)) →
  emits Prow Pcall (bind m k).
Proof.
  intros Hm Hk w. unfold bind.
  destruct (Hm w) as (rs1 & cs1 & Hr1 & Hc1 & HP1 & HQ1).
  destruct (m w) as [[a|e| |] w1]; cbn in *;
    try (exists rs1, cs1; by auto).
  destruct (Hk a w1) as (rs2 & cs2 & Hr2 & Hc2 & HP2 & HQ2).
  eapply emits_seq; eauto.
Qed.

Lemma emits_try_except Prow Pcall {A} (m : M St A) (h : exn → M St A) :
  emits Prow Pcall m → (∀ e, emits Prow Pcall (h e)) →
  emits Prow Pcall (try_except m h).
Proof.
  intros Hm Hh w. unfold try_except.
  destruct (Hm w) as (rs1 & cs1 & Hr1 & Hc1 & HP1 & HQ1).
  destruct (m w) as [[a|e| |] w1]; cbn in *;
    try (exists rs1, cs1; by auto).
  destruct (Hh e w1) as (rs2 & cs2 & Hr2 & Hc2 & HP2 & HQ2).
  eapply emits_seq; eauto.
Qed.

Lemma emits_for_each Prow Pcall {A} (l : list A) (body : A → M St unit) :
  (∀ x, emits Prow Pcall (body x)) → emits Prow Pcall (for_each l body).
Proof.
  intros H. induction l as [|x l IH]; cbn [for_each].
  - apply emits_ret.
  - apply emits_bind; auto.
Qed.

Lemma emits_for_each_var Prow Pcall {A V} (l : list A) (v : V)
    (body : A → V → M St V) :
  (∀ x v, emits Prow Pcall (body x v)) →
  emits Prow Pcall (for_each_var l v body).
Proof.
  intros H. revert v. induction l as [|x l IH]; intros v; cbn [for_each_var].
  - apply emits_ret.
  - apply emits_bind; auto.
Qed.

Lemma emits_if Prow Pcall {A} (b : bool) (m1 m2 : M St A) :
  emits Prow Pcall m1 → emits Prow Pcall m2 →
  emits Prow Pcall (if b then m1 else m2).
Proof. by destruct b. Qed.

End Traces.

Section Results.

Context {St : Type}.

Lemma returns_ret {A} (Post : A → Prop) (a : A) :
  Post a → returns Post (ret a : M St A).
Proof. intros H w a' w' [= <- _]. done. Qed.

Lemma returns_bind {A B} (P : A → Prop) (Q : B → Prop)
    (m : M St A) (k : A → M St B) :
  returns P m → (∀ a, P a → returns Q (k a)) → returns Q (bind m k).
Proof.
  intros Hm Hk w b w'. unfold bind.
  destruct (m w) as [[a|e| |] w1] eqn:E; try discriminate.
  intros Hb. eapply Hk; eauto.
Qed.

Lemma emits_bind_post Prow Pcall {A B} (P : A → Prop)
    (m : M St A) (k : A → M St B) :
  emits Prow Pcall m → returns P m → (∀ a, P a → emits Prow Pcall (k a)) →
  emits Prow Pcall (bind m k).
Proof.
  intros Hm HP Hk w. unfold bind.
  destruct (Hm w) as (rs1 & cs1 & Hr1 & Hc1 & HP1 & HQ1).
  destruct (m w) as [[a|e| |] w1] eqn:E; cbn in *;
    try (exists rs1, cs1; by auto).
  destruct (Hk a (HP _ _ _ E) w1) as (rs2 & cs2 & Hr2 & Hc2 & HP2 & HQ2).
  eapply emits_seq; eauto.
Qed.

Lemma row_within_singleton rid columns v :
  row_within rid columns {[ rid := v ]}.
Proof.
  split.
  - rewrite lookup_singleton_eq. eauto.
  - intros k Hk _. by rewrite lookup_singleton_ne.
Qed.

Lemma row_within_insert rid columns key v r :
  key ∈ columns → row_within rid columns r →
  row_within rid columns (<[key := v]> r).
Proof.
  intros Hin [Hid Hout]. split.
  - destruct (decide (key = rid)) as [->|Hne].
    + rewrite lookup_insert_eq. eauto.
    + by rewrite lookup_insert_ne.
  - intros k Hk Hnin. rewrite lookup_insert_ne; [auto|]. by intros ->.
Qed.

Lemma row_within_update_if rid columns key v r :
  row_within rid columns r → row_within rid columns (update_if columns key v r).
Proof.
  intros H. unfold update_if. case_bool_decide; [|done].
  by apply row_within_insert.
Qed.

Lemma returns_update_if_m rid columns key (mv : M St pyval) r :
  row_within rid columns r →
  returns (row_within rid columns) (update_if_m columns key mv r).
Proof.
  intros H. unfold update_if_m. case_bool_decide.
  - eapply returns_bind with (P := λ _, True); [done|].
    intros v _. apply returns_ret. by apply row_within_insert.
  - by apply returns_ret.
Qed.

Lemma emits_update_if_m Prow Pcall columns key (mv : M St pyval) r :
  (key ∈ columns → emits Prow Pcall mv) →
  emits Prow Pcall (update_if_m columns key mv r).
Proof.
  intros H. unfold update_if_m. case_bool_decide.
  - apply emits_bind; [auto|]. intros v. apply emits_ret.
  - apply emits_ret.
Qed.

Lemma emits_dumps_val Prow Pcall d v :
  emits Prow Pcall (dumps_val d v : M St pyval).
Proof.
  unfold dumps_val. apply emits_bind; [apply emits_lift|].
  intros s. apply emits_ret.
Qed.

End Results.

(** ** The scan of things *)

Section ThingScan.

Context {St : Type} (cl : client St).
Context (dumps dumps_default_str : pyval → exn + string).
Implicit Types (Prow : gmap string pyval → Prop) (Pcall : api_call → Prop).

Lemma emits_thing_groups_more Prow Pcall fuel self thing groups tok :
  (∀ kw, Pcall {| call_op := ListThingGroupsForThing; call_args := kw |}) →
  emits Prow Pcall (thing_groups_more cl fuel self thing groups tok).
Proof.
  intros H. revert groups tok.
  induction fuel as [|fuel IH]; intros groups tok; cbn [thing_groups_more].
  - apply emits_if; [apply emits_out_of_fuel | apply emits_ret].
  - apply emits_if; [|apply emits_ret].
    apply emits_bind; [by apply emits_invoke|]. intros response. apply IH.
Qed.

Lemma emits_thing_groups_for_thing Prow Pcall fuel self thing :
  (∀ kw, Pcall {| call_op := ListThingGroupsForThing; call_args := kw |}) →
  emits Prow Pcall (_thing_groups_for_thing cl dumps fuel self thing).
Proof.
  intros H. unfold _thing_groups_for_thing. apply emits_try_except.
  - apply emits_bind; [by apply emits_invoke|]. intros response.
    apply emits_bind; [by apply emits_thing_groups_more|]. intros groups.
    apply emits_dumps_val.
  - intros e.
    destruct e; (apply emits_bind; [apply emits_log|]; intros; apply emits_ret).
Qed.

Lemma emits_thing_shadow_data Prow Pcall thing :
  (∀ kw, Pcall {| call_op := GetThingShadow; call_args := kw |}) →
  emits Prow Pcall (_thing_shadow_data cl thing).
Proof.
  intros H. unfold _thing_shadow_data. apply emits_try_except.
  - apply emits_bind; [by apply emits_invoke|]. intros shadow.
    destruct (resp_payload shadow); apply emits_ret.
  - intros e.
    destruct e; (apply emits_bind; [apply emits_log|]; intros; apply emits_ret).
Qed.

Lemma emits_thing_row Prow Pcall fuel self columns thing :
  ("thing_groups" ∈ columns →
   ∀ kw, Pcall {| call_op := ListThingGroupsForThing; call_args := kw |}) →
  ("thing_shadow_data" ∈ columns →
   ∀ kw, Pcall {| call_op := GetThingShadow; call_args := kw |}) →
  emits Prow Pcall (thing_row cl dumps fuel self columns thing).
Proof.
  intros Hg Hs. unfold thing_row.
  apply emits_bind.
  { apply emits_update_if_m. intros Hin.
    apply emits_thing_groups_for_thing; auto. }
  intros row1. apply emits_bind.
  { apply emits_update_if_m. intros _. apply emits_dumps_val. }
  intros row2. apply emits_update_if_m. intros Hin.
  apply emits_thing_shadow_data; auto.
Qed.

Lemma returns_thing_row fuel self columns thing :
  returns (row_within (_row_id_column self) columns)
    (thing_row cl dumps fuel self columns thing).
Proof.
  unfold thing_row.
  eapply returns_bind.
  { apply returns_update_if_m. apply row_within_singleton. }
  intros row1 H1. cbn beta.
  eapply returns_bind.
  { apply returns_update_if_m. do 3 apply row_within_update_if. exact H1. }
  intros row2 H2. cbn beta. by apply returns_update_if_m.
Qed.

Lemma emits_thing_rows Prow Pcall fuel self columns things :
  ("thing_groups" ∈ columns →
   ∀ kw, Pcall {| call_op := ListThingGroupsForThing; call_args := kw |}) →
  ("thing_shadow_data" ∈ columns →
   ∀ kw, Pcall {| call_op := GetThingShadow; call_args := kw |}) →
  (∀ r, row_within (_row_id_column self) columns r → Prow r) →
  emits Prow Pcall (thing_rows cl dumps fuel self columns things).
Proof.
  intros Hg Hs Hrow. unfold thing_rows. apply emits_for_each. intros thing.
  eapply emits_bind_post.
  - by apply emits_thing_row.
  - apply returns_thing_row.
  - intros row Hin. apply emits_yield. auto.
Qed.

Lemma emits_thing_pages Prow Pcall fuel self columns filter tok :
  (∀ tok', Pcall {| call_op := ListThings;
                    call_args := list_call_args self tok'
                                   "thingTypeName" filter |}) →
  ("thing_groups" ∈ columns →
   ∀ kw, Pcall {| call_op := ListThingGroupsForThing; call_args := kw |}) →
  ("thing_shadow_data" ∈ columns →
   ∀ kw, Pcall {| call_op := GetThingShadow; call_args := kw |}) →
  (∀ r, row_within (_row_id_column self) columns r → Prow r) →
  emits Prow Pcall (thing_pages cl dumps fuel self columns filter tok).
Proof.
  intros Hl Hg Hs Hrow. revert tok.
  induction fuel as [|fuel IH]; intros tok.
  - apply emits_out_of_fuel.
  - change (thing_pages cl dumps (S fuel) self columns filter tok) with
      (response <- invoke ListThings (list_things cl)
                     (list_call_args self tok "thingTypeName" filter) ;;
       thing_rows cl dumps (S fuel) self columns (resp_items response) ;;;
       if truthy (token_val (resp_nextToken response))
       then thing_pages cl dumps fuel self columns filter
              (token_val (resp_nextToken response))
       else ret tt).
    apply emits_bind; [by apply emits_invoke|]. intros response.
    apply emits_bind; [by apply emits_thing_rows|]. intros _.
    apply emits_if; [apply IH | apply emits_ret].
Qed.

Lemma emits_execute_handler Prow Pcall what e :
  emits Prow Pcall (execute_handler what e : M St unit).
Proof. destruct e; apply emits_log. Qed.

Lemma emits_execute_thing Prow Pcall fuel self quals columns :
  (∀ tok, Pcall {| call_op := ListThings;
                   call_args := list_call_args self tok "thingTypeName"
                                  (thing_type_name_of_quals quals) |}) →
  ("thing_groups" ∈ columns →
   ∀ kw, Pcall {| call_op := ListThingGroupsForThing; call_args := kw |}) →
  ("thing_shadow_data" ∈ columns →
   ∀ kw, Pcall {| call_op := GetThingShadow; call_args := kw |}) →
  (∀ r, row_within (_row_id_column self) columns r → Prow r) →
  emits Prow Pcall (_execute_thing cl dumps fuel self quals columns).
Proof.
  intros. unfold _execute_thing. apply emits_try_except.
  - by apply emits_thing_pages.
  - intros e. apply emits_execute_handler.
Qed.

End ThingScan.

(** ** The filter derived from the predicates *)

Lemma thing_type_name_step_equality q acc :
  thing_type_name_step q acc
  = if type_name_equality q then value q else acc.
Proof.
  unfold thing_type_name_step, type_name_equality.
  destruct (String.eqb (str_lower (field_name q)) "thing_type_name"); [|done].
  by destruct (String.eqb (operator q) "=").
Qed.

Lemma thing_type_name_fold_no_equality post acc :
  Forall (λ q, type_name_equality q = false) post →
  fold_left (λ acc qual, thing_type_name_step qual acc) post acc = acc.
Proof.
  intros H. revert acc. induction H as [|q post Hq _ IH]; intros acc; [done|].
  cbn [fold_left]. rewrite thing_type_name_step_equality, Hq. apply IH.
Qed.

(** The last equality predicate on the type name decides the filter. *)
Lemma thing_type_name_of_quals_last pre q post :
  type_name_equality q = true →
  Forall (λ q', type_name_equality q' = false) post →
  thing_type_name_of_quals (pre ++ q :: post) = value q.
Proof.
  intros Hq Hpost. unfold thing_type_name_of_quals.
  rewrite fold_left_app. cbn [fold_left].
  rewrite thing_type_name_step_equality, Hq.
  by apply thing_type_name_fold_no_equality.
Qed.

Lemma thing_type_name_of_quals_none quals :
  Forall (λ q, type_name_equality q = false) quals →
  thing_type_name_of_quals quals = VNone.
Proof. apply thing_type_name_fold_no_equality. Qed.

Lemma list_call_args_filter self tok key v :
  truthy v = true → list_call_args self tok key v !! key = Some v.
Proof.
  intros H. unfold list_call_args. rewrite H. apply lookup_insert_eq.
Qed.

Lemma list_call_args_max_results self tok key v :
  key ≠ "maxResults" →
  list_call_args self tok key v !! "maxResults"
  = Some (VInt (MAX_RESULTS self)).
Proof.
  intros Hk. unfold list_call_args.
  destruct (truthy v); [rewrite lookup_insert_ne by done|];
    (destruct (truthy tok); [rewrite lookup_insert_ne by done|]);
    apply lookup_singleton_eq.
Qed.

Lemma list_call_args_cursor self tok key v :
  key ≠ "nextToken" →
  list_call_args self tok key v !! "nextToken"
  = if truthy tok then Some tok else None.
Proof.
  intros Hk. unfold list_call_args.
  destruct (truthy v); [rewrite lookup_insert_ne by done|];
    (destruct (truthy tok);
     [apply lookup_insert_eq | by rewrite lookup_singleton_ne]).
Qed.

Lemma list_call_args_no_filter self tok key v :
  key ≠ "maxResults" → key ≠ "nextToken" → truthy v = false →
  list_call_args self tok key v !! key = None.
Proof.
  intros H1 H2 Hv. unfold list_call_args. rewrite Hv.
  destruct (truthy tok); [rewrite lookup_insert_ne by done|];
    by rewrite lookup_singleton_ne.
Qed.

(** ** Claims about the scan of things *)

Section ThingClaims.

Context {St : Type} (cl : client St).
Context (dumps dumps_default_str : pyval → exn + string).

(** A scan first records its list call; whatever follows only appends. *)
Lemma calls_after_first_invoke {R} Prow Pcall op
    (f : gmap string pyval → St → (exn + R) * St) kwargs
    (k : R → M St unit) (h : exn → M St unit) (w : world St) :
  (∀ r, emits Prow Pcall (k r)) → (∀ e, emits Prow Pcall (h e)) →
  ∃ cs, calls (try_except (bind (invoke op f kwargs) k) h w).2
        = calls w ++ {| call_op := op; call_args := kwargs |} :: cs.
Proof.
  intros Hk Hh. unfold try_except, bind, invoke.
  destruct (f kwargs (backend w)) as [[e|r] st'].
  - match goal with |- context [h e ?w1] =>
      destruct (Hh e w1) as (rs & cs & _ & Hc & _) end.
    exists cs. cbn in Hc.
    destruct (h e _) as [[]]; cbn in *; rewrite Hc, <- app_assoc; done.
  - match goal with |- context [k r ?w1] =>
      destruct (Hk r w1) as (rs & cs & _ & Hc & _);
      destruct (k r w1) as [[u|e| |] w2] eqn:Ek end;
      cbn in Hc; cbn.
    + exists cs. rewrite Hc, <- app_assoc. done.
    + destruct (Hh e w2) as (rs' & cs' & _ & Hc' & _).
      exists (cs ++ cs'). rewrite Hc', Hc, <- !app_assoc. done.
    + exists cs. rewrite Hc, <- app_assoc. done.
    + exists cs. rewrite Hc, <- app_assoc. done.
Qed.

(** C6.  In a scan of the thing kind every emitted row has an entry for the
    identity column [thing_name]; any other column has an entry only if it
    was requested (an unrequested column has no entry at all); the
    group-membership call is made only when [thing_groups] is requested and
    the shadow call only when [thing_shadow_data] is requested, so a scan
    that requests only the identity column makes neither call. *)
Theorem thing_scan_column_gating (fuel : nat) (self : AIC_fdw)
    (quals : list Qual) (columns : gset string) (w : world St) :
  constructed St self →
  str_lower (table_type self) = "thing" →
  ∃ rs cs,
    rows (execute cl dumps dumps_default_str fuel self quals columns w).2
    = rows w ++ rs
    ∧ calls (execute cl dumps dumps_default_str fuel self quals columns w).2
      = calls w ++ cs
    ∧ Forall (λ r, is_Some (r !! "thing_name")
                   ∧ ∀ k, k ≠ "thing_name" → k ∉ columns → r !! k = None) rs
    ∧ Forall (λ c, ("thing_groups" ∉ columns →
                    call_op c ≠ ListThingGroupsForThing)
                   ∧ ("thing_shadow_data" ∉ columns →
                      call_op c ≠ GetThingShadow)) cs
    ∧ (columns = {[ "thing_name" ]} →
       Forall (λ c, call_op c ≠ ListThingGroupsForThing
                    ∧ call_op c ≠ GetThingShadow) cs).
Proof.
  intros Hself Hkind.
  destruct (constructed_inv _ _ Hself) as (_ & _ & Hrid).
  assert (_row_id_column self = "thing_name") as Hid.
  { apply row_id_thing; [done|]. by rewrite Hkind. }
  unfold execute. rewrite Hkind. cbn [String.eqb Ascii.eqb Bool.eqb].
  destruct (emits_execute_thing cl dumps
              (λ r, is_Some (r !! "thing_name")
                    ∧ ∀ k, k ≠ "thing_name" → k ∉ columns → r !! k = None)
              (λ c, ("thing_groups" ∉ columns →
                     call_op c ≠ ListThingGroupsForThing)
                    ∧ ("thing_shadow_data" ∉ columns →
                       call_op c ≠ GetThingShadow))
              fuel self quals columns) with (w := w)
    as (rs & cs & Hr & Hc & HP & HQ).
  - intros tok. by split.
  - intros Hin kw. split; [by intros ?|by intros _].
  - intros Hin kw. split; [by intros _|by intros ?].
  - intros r. by rewrite Hid.
  - exists rs, cs. repeat split; try done.
    intros ->. eapply Forall_impl; [exact HQ|].
    intros c [Hg Hs]. split; [apply Hg | apply Hs]; set_solver.
Qed.

(** C8, as the code has it.  When the last equality predicate on the type
    name has a truthy (non-empty) value, every [list_things] call of the scan
    carries exactly that value as [thingTypeName], and a scan with a non-zero
    loop budget makes such a call first. *)
Theorem thing_scan_filter_is_last_equality (fuel : nat) (self : AIC_fdw)
    (pre post : list Qual) (q : Qual) (columns : gset string) (w : world St) :
  str_lower (table_type self) = "thing" →
  type_name_equality q = true →
  Forall (λ q', type_name_equality q' = false) post →
  truthy (value q) = true →
  ∃ cs,
    calls (execute cl dumps dumps_default_str fuel self
             (pre ++ q :: post) columns w).2
    = calls w ++ cs
    ∧ Forall (λ c, call_op c = ListThings →
                   call_args c !! "thingTypeName" = Some (value q)) cs
    ∧ ((0 < fuel)%nat → ∃ c cs', cs = c :: cs' ∧ call_op c = ListThings).
Proof.
  intros Hkind Hq Hpost Hv.
  unfold execute. rewrite Hkind. cbn [String.eqb Ascii.eqb Bool.eqb].
  destruct (emits_execute_thing cl dumps (λ _, True)
              (λ c, call_op c = ListThings →
                    call_args c !! "thingTypeName" = Some (value q))
              fuel self (pre ++ q :: post) columns) with (w := w)
    as (rs & cs & _ & Hc & _ & HQ); try done.
  { intros tok _. cbn [call_args].
    rewrite thing_type_name_of_quals_last by done.
    by apply list_call_args_filter. }
  exists cs. split; [done|]. split; [done|].
  intros Hfuel. destruct fuel as [|fuel]; [lia|].
  destruct (calls_after_first_invoke (λ _, True) (λ _, True)
              ListThings (list_things cl)
              (list_call_args self VNone "thingTypeName"
                 (thing_type_name_of_quals (pre ++ q :: post)))
              (λ response,
                 thing_rows cl dumps (S fuel) self columns
                   (resp_items response) ;;;
                 if truthy (token_val (resp_nextToken response))
                 then thing_pages cl dumps fuel self columns
                        (thing_type_name_of_quals (pre ++ q :: post))
                        (token_val (resp_nextToken response))
                 else ret tt)
              (execute_handler "No things from IoT core with ClientError {}")
              w) as (cs' & Hc').
  { intros response. apply emits_bind; [by apply emits_thing_rows|].
    intros _. apply emits_if; [by apply emits_thing_pages | apply emits_ret]. }
  { intros e. apply emits_execute_handler. }
  assert (calls w ++ cs = calls w ++ {| call_op := ListThings;
            call_args := list_call_args self VNone "thingTypeName"
                           (thing_type_name_of_quals (pre ++ q :: post)) |}
                          :: cs') as Heq
    by (rewrite <- Hc; exact Hc').
  apply app_inv_head in Heq. eauto.
Qed.

End ThingClaims.

(** ** The shadow lookup inside the scan of things *)

Section ShadowClaims.

Context {St : Type} (cl : client St).
Context (dumps : pyval → exn + string).

(** The shadow column is the last one added to a row: building a row is
    building it without that column and then asking for the shadow. *)
Lemma thing_row_shadow_last fuel self columns thing (w : world St) :
  "thing_shadow_data" ∈ columns →
  thing_row cl dumps fuel self columns thing w
  = bind (thing_row cl dumps fuel self
            (columns ∖ {[ "thing_shadow_data" ]}) thing)
      (λ row, v <- _thing_shadow_data cl (get thing "thingName") ;;
              ret (<["thing_shadow_data" := v]> row)) w.
Proof.
  intros Hin.
  assert (∀ k, k ≠ "thing_shadow_data" →
               bool_decide (k ∈ columns ∖ {[ "thing_shadow_data" ]})
               = bool_decide (k ∈ columns)) as Hother.
  { intros k Hk. apply bool_decide_ext.
    rewrite elem_of_difference, elem_of_singleton. tauto. }
  unfold thing_row, update_if_m, update_if.
  rewrite !Hother by done.
  rewrite (bool_decide_eq_false_2
             ("thing_shadow_data" ∈ columns ∖ {[ "thing_shadow_data" ]}))
    by (rewrite elem_of_difference, elem_of_singleton; tauto).
  rewrite (bool_decide_eq_true_2 ("thing_shadow_data" ∈ columns)) by done.
  unfold bind, ret.
  repeat case_match; simplify_eq; try reflexivity.
Qed.

(** A lookup that raises [ClientError], or that answers without a payload,
    gives [None] and logs at most a warning. *)
Lemma thing_shadow_data_none thing (w0 : world St) :
  (∃ m st', get_thing_shadow cl {[ "thingName" := thing ]} (backend w0)
            = (inl (ClientError m), st'))
  ∨ (∃ st', get_thing_shadow cl {[ "thingName" := thing ]} (backend w0)
            = (inr {| resp_payload := None |}, st')) →
  ∃ w1, _thing_shadow_data cl thing w0 = (Ret VNone, w1)
        ∧ rows w1 = rows w0 ∧ no_error_logged w0 w1.
Proof.
  unfold _thing_shadow_data, try_except, bind, invoke, no_error_logged.
  intros [(m & st' & ->)|(st' & ->)]; cbn.
  - eexists. split; [reflexivity|]. cbn. split; [done|].
    eexists. split; [reflexivity|]. by repeat constructor.
  - eexists. split; [reflexivity|]. cbn. split; [done|].
    exists []. by rewrite app_nil_r.
Qed.

(** C4, as the code has it.  Take a device whose row, apart from the shadow
    column, is built without error, and let the shadow column be requested.
    If the lookup raises [ClientError] or answers without a payload, the row
    is yielded with the value [None] under [thing_shadow_data], nothing is
    logged at level [ERROR], and the loop goes on with the remaining devices
    exactly as it would from there.  If the lookup raises anything else, one
    line is logged at level [ERROR] and the scan aborts there: no row is
    yielded for this device or for any device after it. *)
Theorem shadow_failure_outcomes (fuel : nat)
    (self : AIC_fdw) (columns : gset string)
    (thing : gmap string pyval) (rest : list (gmap string pyval))
    (w w0 : world St) (r0 : gmap string pyval) :
  "thing_shadow_data" ∈ columns →
  thing_row cl dumps fuel self (columns ∖ {[ "thing_shadow_data" ]}) thing w
  = (Ret r0, w0) →
  ((∃ m st', get_thing_shadow cl {[ "thingName" := get thing "thingName" ]}
               (backend w0) = (inl (ClientError m), st'))
   ∨ (∃ st', get_thing_shadow cl {[ "thingName" := get thing "thingName" ]}
               (backend w0) = (inr {| resp_payload := None |}, st')) →
   ∃ w1,
     thing_rows cl dumps fuel self columns (thing :: rest) w
     = thing_rows cl dumps fuel self columns rest w1
     ∧ rows w1 = rows w0 ++ [<["thing_shadow_data" := VNone]> r0]
     ∧ no_error_logged w0 w1)
  ∧ (∀ e st',
       get_thing_shadow cl {[ "thingName" := get thing "thingName" ]}
         (backend w0) = (inl e, st') →
       (∀ m, e ≠ ClientError m) →
       thing_rows cl dumps fuel self columns (thing :: rest) w
       = (Abort,
          {| backend := st';
             calls := calls w0
                      ++ [{| call_op := GetThingShadow;
                             call_args :=
                               {[ "thingName" := get thing "thingName" ]} |}];
             logs := logs w0
                     ++ [{| log_lvl := ERROR;
                            log_format := "Unknown error {}";
                            log_params := [VStr (exn_str e)] |}];
             rows := rows w0 |})).
Proof.
  intros Hin Hrow. split.
  - intros Hshadow.
    destruct (thing_shadow_data_none _ _ Hshadow) as (w1 & Hs & Hrows & Hlog).
    exists {| backend := backend w1; calls := calls w1; logs := logs w1;
              rows := rows w1 ++ [<["thing_shadow_data" := VNone]> r0] |}.
    split; [|split].
    + unfold thing_rows. cbn [for_each]. unfold bind at 1 2.
      rewrite thing_row_shadow_last by done.
      unfold bind at 1. rewrite Hrow. unfold bind at 1. rewrite Hs.
      reflexivity.
    + cbn. by rewrite Hrows.
    + exact Hlog.
  - intros e st' Hcall Hne.
    unfold thing_rows. cbn [for_each]. unfold bind at 1 2.
    rewrite thing_row_shadow_last by done.
    unfold bind at 1. rewrite Hrow. unfold bind at 1.
    unfold _thing_shadow_data, try_except, bind at 1, invoke.
    rewrite Hcall. destruct e; try reflexivity.
    by destruct (Hne msg).
Qed.

End ShadowClaims.

(** ** The scan of thing groups *)

Section GroupScan.

Context {St : Type}.

(** The LIKE branch of the predicate loop can never be taken: it asks the
    field name, which has just been matched against [thing_group_name], to
    hold the wildcard. *)
Lemma thing_group_prefix_step_spec self q acc (w : world St) :
  LIKE_WILDCARD self = "%" →
  thing_group_prefix_step self q acc w
  = (Ret (if (String.eqb (str_lower (field_name q)) "thing_group_name"
              && String.eqb (operator q) "=")%bool
          then value q else acc), w).
Proof.
  intros Hw. unfold thing_group_prefix_step. rewrite Hw.
  destruct (String.eqb (str_lower (field_name q)) "thing_group_name") eqn:Hf;
    [|done].
  destruct (String.eqb (operator q) "="); [done|].
  rewrite (group_field_has_no_wildcard _ Hf).
  by rewrite andb_false_r.
Qed.

Lemma thing_group_prefix_loop self quals acc (w : world St) :
  LIKE_WILDCARD self = "%" →
  for_each_var quals acc (thing_group_prefix_step self) w
  = (Ret (fold_left
            (fun acc qual =>
               if (String.eqb (str_lower (field_name qual)) "thing_group_name"
                   && String.eqb (operator qual) "=")%bool
               then value qual else acc) quals acc), w).
Proof.
  intros Hw. revert acc. induction quals as [|q quals IH]; intros acc; [done|].
  cbn [for_each_var fold_left]. unfold bind.
  rewrite thing_group_prefix_step_spec by done. apply IH.
Qed.

Lemma for_each_yield {A} (f : A → gmap string pyval) (l : list A)
    (w : world St) :
  for_each l (λ x, yield (f x)) w
  = (Ret tt, {| backend := backend w; calls := calls w; logs := logs w;
                rows := rows w ++ (f <$> l) |}).
Proof.
  revert w. induction l as [|x l IH]; intros w; cbn [for_each fmap list_fmap].
  - unfold ret. rewrite app_nil_r. by destruct w.
  - unfold bind, yield at 1. rewrite IH. cbn.
    by rewrite <- app_assoc.
Qed.

End GroupScan.

(** ** The fetch loops against pages *)

Section Quiet.

Context {St : Type}.

Lemma quiet_ret {A} (a : A) : quiet 0 (ret a : M St A).
Proof.
  intros w. exists a, [], []. rewrite !app_nil_r. by destruct w.
Qed.

Lemma quiet_bind {A B} n k (m : M St A) (f : A → M St B) :
  quiet n m → (∀ a, quiet k (f a)) → quiet (n + k) (bind m f).
Proof.
  intros Hm Hf w. destruct (Hm w) as (a & cs1 & rs1 & E1 & F1 & L1).
  unfold bind. rewrite E1.
  match goal with |- context [f a ?w1] =>
    destruct (Hf a w1) as (b & cs2 & rs2 & E2 & F2 & L2) end.
  exists b, (cs1 ++ cs2), (rs1 ++ rs2). rewrite E2. cbn.
  rewrite !app_assoc. split; [done|]. split.
  - by rewrite List.filter_app, F1, F2.
  - rewrite length_app. lia.
Qed.

Lemma quiet_yield row : quiet 1 (yield row : M St unit).
Proof.
  intros w. exists tt, [], [row]. rewrite app_nil_r. done.
Qed.

Lemma quiet_dumps_val d v :
  (∀ v, ∃ s, d v = inr s) → quiet 0 (dumps_val d v : M St pyval).
Proof.
  intros Hd w. destruct (Hd v) as [s Hs].
  unfold dumps_val, bind, lift. rewrite Hs. apply quiet_ret.
Qed.

Lemma quiet_update_if_m columns key (mv : M St pyval) row :
  quiet 0 mv → quiet 0 (update_if_m columns key mv row).
Proof.
  intros H. unfold update_if_m. case_bool_decide; [|apply quiet_ret].
  apply (quiet_bind 0 0); [done|]. intros v. apply quiet_ret.
Qed.

Lemma quiet_for_each {A} (l : list A) (body : A → M St unit) :
  (∀ x, quiet 1 (body x)) → quiet (length l) (for_each l body).
Proof.
  intros H. induction l as [|x l IH]; cbn [for_each length].
  - apply quiet_ret.
  - apply (quiet_bind 1 (length l)); [apply H|]. intros _. apply IH.
Qed.

Lemma quiet_for_each_var {A V} (l : list A) (v : V) (body : A → V → M St V) :
  (∀ x v, quiet 1 (body x v)) → quiet (length l) (for_each_var l v body).
Proof.
  intros H. revert v.
  induction l as [|x l IH]; intros v; cbn [for_each_var length].
  - apply quiet_ret.
  - apply (quiet_bind 1 (length l)); [apply H|]. intros v'. apply IH.
Qed.

End Quiet.

Section Paging.

Context (dumps dumps_default_str : pyval → exn + string).
Hypothesis dumps_total : ∀ v, ∃ s, dumps v = inr s.
Hypothesis dumps_default_str_total : ∀ v, ∃ s, dumps_default_str v = inr s.

Lemma quiet_thing_groups_for_thing fuel self thing :
  quiet 0 (_thing_groups_for_thing paging_client dumps fuel self thing).
Proof.
  intros w. destruct (dumps_total (VList (VDict <$> []))) as [s Hs].
  exists (VStr s), [{| call_op := ListThingGroupsForThing;
                        call_args := membership_args self thing |}], [].
  unfold _thing_groups_for_thing, try_except, bind at 1, invoke.
  cbn [list_thing_groups_for_thing paging_client resp_items resp_nextToken
       token_val].
  unfold bind at 1.
  assert (∀ w', thing_groups_more paging_client fuel self thing [] VNone w'
                = (Ret [], w')) as -> by (intros w'; by destruct fuel).
  unfold dumps_val, bind, lift. rewrite Hs. cbn. by rewrite app_nil_r.
Qed.

Lemma quiet_thing_shadow_data thing :
  quiet 0 (_thing_shadow_data paging_client thing).
Proof.
  intros w.
  exists VNone, [{| call_op := GetThingShadow;
                    call_args := {[ "thingName" := thing ]} |}], [].
  unfold _thing_shadow_data, try_except, bind, invoke. cbn.
  by rewrite app_nil_r.
Qed.

Lemma quiet_thing_rows fuel self columns things :
  quiet (length things) (thing_rows paging_client dumps fuel self columns things).
Proof.
  unfold thing_rows. apply quiet_for_each. intros thing.
  apply (quiet_bind 0 1); [|intros row; apply quiet_yield].
  unfold thing_row.
  apply (quiet_bind 0 0).
  { apply quiet_update_if_m, quiet_thing_groups_for_thing. }
  intros row1. apply (quiet_bind 0 0).
  { apply quiet_update_if_m. by apply quiet_dumps_val. }
  intros row2. apply quiet_update_if_m, quiet_thing_shadow_data.
Qed.

Lemma quiet_thing_type_items self columns items name :
  quiet (length items)
    (for_each_var items name
       (thing_type_item dumps dumps_default_str self columns)
     : M (list list_response) pyval).
Proof.
  apply quiet_for_each_var. intros thing_type v. unfold thing_type_item.
  apply (quiet_bind 0 1).
  { apply quiet_update_if_m. by apply quiet_dumps_val. }
  intros row1. apply (quiet_bind 0 1).
  { apply quiet_update_if_m. by apply quiet_dumps_val. }
  intros row2. apply (quiet_bind 1 0); [apply quiet_yield|].
  intros _. apply quiet_ret.
Qed.

Lemma quiet_thing_group_items self columns items :
  quiet (length items)
    (for_each items
       (λ thing_type, yield (thing_group_row self columns thing_type))
     : M (list list_response) unit).
Proof. apply quiet_for_each. intros x. apply quiet_yield. Qed.

Lemma cursor_chain_head self op tok key v p ps ls :
  MAX_RESULTS self = 250 → key ≠ "maxResults" → key ≠ "nextToken" →
  cursor_chain op (token_val (resp_nextToken p)) ps ls →
  cursor_chain op tok (p :: ps)
    ({| call_op := op; call_args := list_call_args self tok key v |} :: ls).
Proof.
  intros Hmax H1 H2 Hc. cbn [cursor_chain call_op call_args].
  rewrite list_call_args_max_results, list_call_args_cursor, Hmax by done.
  done.
Qed.

(** One turn of a fetch loop: the list call takes the next page, the items
    of the page are turned into rows without touching the script. *)
Ltac fetch_turn Hb :=
  unfold bind at 1, invoke;
  cbn [list_things list_thing_types list_thing_groups paging_client];
  unfold paging_list; rewrite Hb; cbn [app]; lazy beta iota zeta;
  unfold bind at 1.

Lemma paging_thing_pages fuel self columns filter tok init last rest
    (w : world (list list_response)) :
  MAX_RESULTS self = 250 →
  Forall (λ p, truthy (token_val (resp_nextToken p)) = true) init →
  truthy (token_val (resp_nextToken last)) = false →
  backend w = init ++ last :: rest →
  (length init < fuel)%nat →
  ∃ cs rs,
    thing_pages paging_client dumps fuel self columns filter tok w
    = (Ret tt, {| backend := rest; calls := calls w ++ cs;
                  logs := logs w; rows := rows w ++ rs |})
    ∧ cursor_chain ListThings tok (init ++ [last])
        (List.filter is_primary_list cs)
    ∧ length rs = length (concat (resp_items <$> init ++ [last])).
Proof.
  intros Hmax Hinit Hlast. revert fuel tok w.
  induction Hinit as [|p init Hp _ IH]; intros fuel tok w Hb Hf;
    (destruct fuel as [|fuel]; [cbn in Hf; lia|]); cbn [thing_pages].
  - fetch_turn Hb.
    match goal with
    | |- context [{| backend := ?b; calls := ?c ++ [?x];
                     logs := ?l; rows := ?r |}] =>
      destruct (quiet_thing_rows (S fuel) self columns (resp_items last)
                  {| backend := b; calls := c ++ [x]; logs := l; rows := r |})
        as (u & cs1 & rs1 & E1 & F1 & L1)
    end.
    cbn [backend calls logs rows] in E1. rewrite E1.
    rewrite Hlast. do 2 eexists. split; [|split].
    + unfold ret. rewrite <- app_assoc. reflexivity.
    + cbn [app List.filter is_primary_list call_op]. rewrite F1.
      by apply cursor_chain_head.
    + cbn. by rewrite app_nil_r.
  - fetch_turn Hb.
    match goal with
    | |- context [{| backend := ?b; calls := ?c ++ [?x];
                     logs := ?l; rows := ?r |}] =>
      destruct (quiet_thing_rows (S fuel) self columns (resp_items p)
                  {| backend := b; calls := c ++ [x]; logs := l; rows := r |})
        as (u & cs1 & rs1 & E1 & F1 & L1)
    end.
    cbn [backend calls logs rows] in E1. rewrite E1.
    rewrite Hp.
    match type of E1 with _ = (_, ?w2) =>
      destruct (IH fuel (token_val (resp_nextToken p)) w2)
        as (cs2 & rs2 & E2 & C2 & L2); [reflexivity|cbn in Hf; lia|]
    end.
    rewrite E2. eexists (_ :: cs1 ++ cs2), (rs1 ++ rs2). split; [|split].
    + cbn [backend calls logs rows]. rewrite <- !app_assoc. reflexivity.
    + cbn [List.filter is_primary_list call_op].
      rewrite List.filter_app, F1. cbn [app].
      by apply cursor_chain_head.
    + cbn. rewrite !length_app. lia.
Qed.

Lemma paging_thing_type_pages fuel self columns filter tok init last rest
    (w : world (list list_response)) :
  MAX_RESULTS self = 250 →
  Forall (λ p, truthy (token_val (resp_nextToken p)) = true) init →
  truthy (token_val (resp_nextToken last)) = false →
  backend w = init ++ last :: rest →
  (length init < fuel)%nat →
  ∃ cs rs,
    thing_type_pages paging_client dumps dumps_default_str fuel self columns
      filter tok w
    = (Ret tt, {| backend := rest; calls := calls w ++ cs;
                  logs := logs w; rows := rows w ++ rs |})
    ∧ cursor_chain ListThingTypes tok (init ++ [last])
        (List.filter is_primary_list cs)
    ∧ length rs = length (concat (resp_items <$> init ++ [last])).
Proof.
  intros Hmax Hinit Hlast. revert fuel filter tok w.
  induction Hinit as [|p init Hp _ IH]; intros fuel filter tok w Hb Hf;
    (destruct fuel as [|fuel]; [cbn in Hf; lia|]); cbn [thing_type_pages].
  - fetch_turn Hb.
    match goal with
    | |- context [{| backend := ?b; calls := ?c ++ [?x];
                     logs := ?l; rows := ?r |}] =>
      destruct (quiet_thing_type_items self columns (resp_items last) filter
                  {| backend := b; calls := c ++ [x]; logs := l; rows := r |})
        as (u & cs1 & rs1 & E1 & F1 & L1)
    end.
    cbn [backend calls logs rows] in E1. rewrite E1.
    rewrite Hlast. do 2 eexists. split; [|split].
    + unfold ret. rewrite <- app_assoc. reflexivity.
    + cbn [app List.filter is_primary_list call_op]. rewrite F1.
      by apply cursor_chain_head.
    + cbn. by rewrite app_nil_r.
  - fetch_turn Hb.
    match goal with
    | |- context [{| backend := ?b; calls := ?c ++ [?x];
                     logs := ?l; rows := ?r |}] =>
      destruct (quiet_thing_type_items self columns (resp_items p) filter
                  {| backend := b; calls := c ++ [x]; logs := l; rows := r |})
        as (u & cs1 & rs1 & E1 & F1 & L1)
    end.
    cbn [backend calls logs rows] in E1. rewrite E1.
    rewrite Hp.
    match type of E1 with _ = (_, ?w2) =>
      destruct (IH fuel u (token_val (resp_nextToken p)) w2)
        as (cs2 & rs2 & E2 & C2 & L2); [reflexivity|cbn in Hf; lia|]
    end.
    rewrite E2. eexists (_ :: cs1 ++ cs2), (rs1 ++ rs2). split; [|split].
    + cbn [backend calls logs rows]. rewrite <- !app_assoc. reflexivity.
    + cbn [List.filter is_primary_list call_op].
      rewrite List.filter_app, F1. cbn [app].
      by apply cursor_chain_head.
    + cbn. rewrite !length_app. lia.
Qed.

Lemma paging_thing_group_pages fuel self columns prefix tok init last rest
    (w : world (list list_response)) :
  MAX_RESULTS self = 250 →
  Forall (λ p, truthy (token_val (resp_nextToken p)) = true) init →
  truthy (token_val (resp_nextToken last)) = false →
  backend w = init ++ last :: rest →
  (length init < fuel)%nat →
  ∃ cs rs,
    thing_group_pages paging_client fuel self columns prefix tok w
    = (Ret tt, {| backend := rest; calls := calls w ++ cs;
                  logs := logs w; rows := rows w ++ rs |})
    ∧ cursor_chain ListThingGroups tok (init ++ [last])
        (List.filter is_primary_list cs)
    ∧ length rs = length (concat (resp_items <$> init ++ [last])).
Proof.
  intros Hmax Hinit Hlast. revert fuel tok w.
  induction Hinit as [|p init Hp _ IH]; intros fuel tok w Hb Hf;
    (destruct fuel as [|fuel]; [cbn in Hf; lia|]); cbn [thing_group_pages].
  - fetch_turn Hb.
    match goal with
    | |- context [{| backend := ?b; calls := ?c ++ [?x];
                     logs := ?l; rows := ?r |}] =>
      destruct (quiet_thing_group_items self columns (resp_items last)
                  {| backend := b; calls := c ++ [x]; logs := l; rows := r |})
        as (u & cs1 & rs1 & E1 & F1 & L1)
    end.
    cbn [backend calls logs rows] in E1. rewrite E1.
    rewrite Hlast. do 2 eexists. split; [|split].
    + unfold ret. rewrite <- app_assoc. reflexivity.
    + cbn [app List.filter is_primary_list call_op]. rewrite F1.
      by apply cursor_chain_head.
    + cbn. by rewrite app_nil_r.
  - fetch_turn Hb.
    match goal with
    | |- context [{| backend := ?b; calls := ?c ++ [?x];
                     logs := ?l; rows := ?r |}] =>
      destruct (quiet_thing_group_items self columns (resp_items p)
                  {| backend := b; calls := c ++ [x]; logs := l; rows := r |})
        as (u & cs1 & rs1 & E1 & F1 & L1)
    end.
    cbn [backend calls logs rows] in E1. rewrite E1.
    rewrite Hp.
    match type of E1 with _ = (_, ?w2) =>
      destruct (IH fuel (token_val (resp_nextToken p)) w2)
        as (cs2 & rs2 & E2 & C2 & L2); [reflexivity|cbn in Hf; lia|]
    end.
    rewrite E2. eexists (_ :: cs1 ++ cs2), (rs1 ++ rs2). split; [|split].
    + cbn [backend calls logs rows]. rewrite <- !app_assoc. reflexivity.
    + cbn [List.filter is_primary_list call_op].
      rewrite List.filter_app, F1. cbn [app].
      by apply cursor_chain_head.
    + cbn. rewrite !length_app. lia.
Qed.

End Paging.

Lemma cursor_chain_length op tok pages ls :
  cursor_chain op tok pages ls → length ls = length pages.
Proof.
  revert tok ls. induction pages as [|p ps IH]; intros tok [|c ls];
    cbn [cursor_chain]; try done.
  intros (_ & _ & _ & H). cbn. by rewrite (IH _ _ H).
Qed.

Lemma cursor_chain_shape op tok pages ls :
  cursor_chain op tok pages ls →
  Forall (λ c, call_op c = op
               ∧ call_args c !! "maxResults" = Some (VInt 250)) ls.
Proof.
  revert tok ls. induction pages as [|p ps IH]; intros tok [|c ls];
    cbn [cursor_chain]; try done.
  intros (H1 & H2 & _ & H). constructor; [done|]. by apply (IH _ _ H).
Qed.

Lemma cursor_chain_first op tok pages ls c :
  cursor_chain op tok pages ls → ls !! 0%nat = Some c →
  call_args c !! "nextToken" = if truthy tok then Some tok else None.
Proof.
  destruct pages as [|p ps], ls as [|c' ls]; cbn [cursor_chain]; try done.
  by intros (_ & _ & H & _) [= <-].
Qed.

(** From the second call onward the cursor is the one of the page before. *)
Lemma cursor_chain_next op tok init last ls i p c :
  Forall (λ p, truthy (token_val (resp_nextToken p)) = true) init →
  cursor_chain op tok (init ++ [last]) ls →
  (init ++ [last]) !! i = Some p → ls !! S i = Some c →
  call_args c !! "nextToken" = Some (token_val (resp_nextToken p)).
Proof.
  intros Hinit. revert tok ls i.
  induction Hinit as [|p0 init Hp0 _ IH]; intros tok [|c0 ls] i;
    cbn [app cursor_chain]; try done.
  - intros (_ & _ & _ & H) _ Hc. destruct ls; [done|].
    by destruct H.
  - intros (_ & _ & _ & H) Hp Hc. destruct i as [|i].
    + injection Hp as <-. cbn in Hc.
      rewrite (cursor_chain_first _ _ _ _ _ H Hc). by rewrite Hp0.
    + exact (IH _ _ _ H Hp Hc).
Qed.

(** C5.  Take a backend that hands out a script of pages, all but the last
    with a cursor, and a serialiser that does not raise.  Whatever the kind
    of the table, the scan returns normally, has taken the pages up to and
    including the first one without cursor and no page after it, and has
    yielded one row per item.  Among its calls, those of the paged list
    operations are exactly one per page, all of the list operation of the
    kind and all with [maxResults = 250]; the first carries no [nextToken],
    each later one carries the cursor of the page before it.  (A cursor
    counts as present when it is a non-empty string.)  In particular three
    pages of 250, 250 and 10 items give 510 rows and 3 list calls, for each
    of the three kinds. *)
Theorem fetch_loop_pagination :
  (∀ (fuel : nat) (self : AIC_fdw) (quals : list Qual)
     (columns : gset string) (init : list list_response)
     (last : list_response) (rest : list list_response)
     (w : world (list list_response))
     (dumps dumps_default_str : pyval → exn + string),
     constructed (list list_response) self →
     (∀ v, ∃ s, dumps v = inr s) →
     (∀ v, ∃ s, dumps_default_str v = inr s) →
     Forall (λ p, truthy (token_val (resp_nextToken p)) = true) init →
     truthy (token_val (resp_nextToken last)) = false →
     backend w = init ++ last :: rest →
     (length init < fuel)%nat →
     ∃ cs rs,
       execute paging_client dumps dumps_default_str fuel self quals columns w
       = (Ret tt,
          {| backend := rest;
             calls := calls w ++ cs;
             logs := logs w;
             rows := rows w ++ rs |})
       ∧ length rs = length (concat (resp_items <$> init ++ [last]))
       ∧ length (List.filter is_primary_list cs) = length (init ++ [last])
       ∧ Forall (λ c, call_op c = list_operation_of_kind self
                      ∧ call_args c !! "maxResults" = Some (VInt 250))
           (List.filter is_primary_list cs)
       ∧ (∀ c, List.filter is_primary_list cs !! 0%nat = Some c →
               call_args c !! "nextToken" = None)
       ∧ (∀ i p c, (init ++ [last]) !! i = Some p →
                   List.filter is_primary_list cs !! S i = Some c →
                   call_args c !! "nextToken"
                   = Some (token_val (resp_nextToken p))))
  ∧ ((execute paging_client stub_dumps stub_dumps 3 (stub_self "thing") []
        all_thing_columns (fresh_world (three_pages_of "thingName"))).1
     = Ret tt
     ∧ length (rows (execute paging_client stub_dumps stub_dumps 3
                       (stub_self "thing") [] all_thing_columns
                       (fresh_world (three_pages_of "thingName"))).2)
       = 510%nat
     ∧ length (List.filter is_primary_list
                 (calls (execute paging_client stub_dumps stub_dumps 3
                           (stub_self "thing") [] all_thing_columns
                           (fresh_world (three_pages_of "thingName"))).2))
       = 3%nat)
  ∧ ((execute paging_client stub_dumps stub_dumps 3 (stub_self "thing-type")
        [] all_thing_type_columns
        (fresh_world (three_pages_of "thingTypeName"))).1
     = Ret tt
     ∧ length (rows (execute paging_client stub_dumps stub_dumps 3
                       (stub_self "thing-type") [] all_thing_type_columns
                       (fresh_world (three_pages_of "thingTypeName"))).2)
       = 510%nat
     ∧ length (List.filter is_primary_list
                 (calls (execute paging_client stub_dumps stub_dumps 3
                           (stub_self "thing-type") []
                           all_thing_type_columns
                           (fresh_world (three_pages_of "thingTypeName"))).2))
       = 3%nat)
  ∧ ((execute paging_client stub_dumps stub_dumps 3 (stub_self "thing-group")
        [] all_thing_group_columns
        (fresh_world (three_pages_of "groupName"))).1
     = Ret tt
     ∧ length (rows (execute paging_client stub_dumps stub_dumps 3
                       (stub_self "thing-group") [] all_thing_group_columns
                       (fresh_world (three_pages_of "groupName"))).2)
       = 510%nat
     ∧ length (List.filter is_primary_list
                 (calls (execute paging_client stub_dumps stub_dumps 3
                           (stub_self "thing-group") []
                           all_thing_group_columns
                           (fresh_world (three_pages_of "groupName"))).2))
       = 3%nat).
Proof.
  split; [|repeat split; by vm_compute].
  intros fuel self quals columns init last rest w d d'
    Hself Hd Hd' Hinit Hlast Hb Hfuel.
  destruct (constructed_inv _ _ Hself) as (Hmax & Hwild & Hrid).
  assert (∃ cs rs,
    execute paging_client d d' fuel self quals columns w
    = (Ret tt, {| backend := rest; calls := calls w ++ cs;
                  logs := logs w; rows := rows w ++ rs |})
    ∧ cursor_chain (list_operation_of_kind self) VNone (init ++ [last])
        (List.filter is_primary_list cs)
    ∧ length rs = length (concat (resp_items <$> init ++ [last])))
    as (cs & rs & E & C & L).
  { unfold execute, list_operation_of_kind.
    destruct (row_id_of_table_type_cases (table_type self))
      as [[Hk _]|[[Hk _]|[[Hk _]|(_ & _ & _ & Hnone)]]];
      [| | |congruence]; rewrite Hk; cbn [String.eqb Ascii.eqb Bool.eqb].
    - unfold _execute_thing, try_except.
      destruct (paging_thing_pages d Hd fuel self columns
                  (thing_type_name_of_quals quals) VNone init last rest w)
        as (cs & rs & E & C & L); try done.
      exists cs, rs. by rewrite E.
    - unfold _execute_thing_type, try_except.
      destruct (paging_thing_type_pages d d' Hd Hd' fuel self columns
                  (thing_type_name_of_quals quals) VNone init last rest w)
        as (cs & rs & E & C & L); try done.
      exists cs, rs. by rewrite E.
    - unfold _execute_thing_group. unfold bind at 1.
      rewrite thing_group_prefix_loop by done. unfold try_except.
      destruct (paging_thing_group_pages fuel self columns
                  (thing_group_prefix_of_quals quals) VNone init last rest w)
        as (cs & rs & E & C & L); try done.
      exists cs, rs. unfold thing_group_prefix_of_quals in E. by rewrite E. }
  exists cs, rs. split; [done|]. split; [done|].
  split; [by apply cursor_chain_length in C|].
  split; [by apply cursor_chain_shape in C|].
  split.
  - intros c Hc. by rewrite (cursor_chain_first _ _ _ _ _ C Hc).
  - intros i p c Hp Hc.
    exact (cursor_chain_next _ _ _ _ _ _ _ _ Hinit C Hp Hc).
Qed.

(** C1, on the failing input.  A LIKE predicate [thing_group_name ~~ 'abc%']
    yields no prefix filter: the one [list_thing_groups] call carries only
    the page-size cap. *)
Theorem like_prefix_not_pushed_down :
  calls (execute stub_client stub_dumps stub_dumps 1
           (stub_self "thing-group") [like_abc] {[ "thing_group_name" ]}
           (stub_world [group_page 0 1 None] ∅)).2
  = [{| call_op := ListThingGroups;
        call_args := {[ "maxResults" := VInt 250 ]} |}].
Proof. by vm_compute. Qed.

(** C2, on the failing input.  With no predicate at all, the scan of thing
    types sends the name of the last type of the first page as
    [thingTypeName] with the call for the second page. *)
Theorem thing_type_scan_leaks_filter :
  calls (execute stub_client stub_dumps stub_dumps 2
           (stub_self "thing-type") [] {[ "thing_type_name" ]}
           (stub_world two_type_pages ∅)).2
  = [{| call_op := ListThingTypes;
        call_args := {[ "maxResults" := VInt 250 ]} |};
     {| call_op := ListThingTypes;
        call_args := <["thingTypeName" := VStr "B"]>
                       (<["nextToken" := VStr "t1"]>
                          {[ "maxResults" := VInt 250 ]}) |}].
Proof. by vm_compute. Qed.

(** ** The mutation entry points *)

Section Mutations.

Context {St : Type} (cl : client St).

(** C3, on the failing input.  The values of an insert are keyed by column
    name, so the type reference arrives under [thing_type_name]; the insert
    looks under [thing_type] and creates the device without its type. *)
Theorem insert_drops_type_name (w : world St) :
  calls (insert cl (stub_self "thing") typed_device w).2
  = calls w ++ [{| call_op := CreateThing;
                   call_args := {[ "thingName" := VStr "dev1" ]} |}].
Proof.
  unfold insert.
  change (String.eqb "thing" (str_lower (table_type (stub_self "thing"))))
    with true.
  cbn match.
  unfold _insert_thing.
  replace (get typed_device "thing_type") with VNone by (by vm_compute).
  replace (get typed_device "thing_name") with (VStr "dev1")
    by (by vm_compute).
  cbn [truthy]. unfold try_except, bind, invoke, log_to_postgres, ret.
  match goal with |- context [create_thing cl ?kw ?st] =>
    destruct (create_thing cl kw st) as [[e|[]] st'] end;
    [destruct e|]; reflexivity.
Qed.

(** C7.  An update of the thing kind whose new values have no
    [thing_shadow_data] entry returns them unchanged and leaves the world as
    it was (no call at all).  When the entry is there and the backend answers
    with a payload, the one call made is [update_thing_shadow] with the
    row id and the submitted document, and the mapping returned is the new
    values with the payload's bytes under [thing_shadow_data]. *)
Theorem update_thing_writes_only_shadow (self : AIC_fdw) (rowid : pyval)
    (newvalues : gmap string pyval) (w : world St) :
  str_lower (table_type self) = "thing" →
  (newvalues !! "thing_shadow_data" = None →
   update cl self rowid newvalues w = (Ret (Some newvalues), w))
  ∧ (∀ v data st',
       newvalues !! "thing_shadow_data" = Some v →
       update_thing_shadow cl
         (<["payload" := v]> {[ "thingName" := rowid ]}) (backend w)
       = (inr {| resp_payload := Some data |}, st') →
       update cl self rowid newvalues w
       = (Ret (Some (<["thing_shadow_data" := VBytes data]> newvalues)),
          {| backend := st';
             calls := calls w
                      ++ [{| call_op := UpdateThingShadow;
                             call_args := <["payload" := v]>
                                            {[ "thingName" := rowid ]} |}];
             logs := logs w;
             rows := rows w |})).
Proof.
  intros Hkind. unfold update. rewrite Hkind.
  cbn [String.eqb Ascii.eqb Bool.eqb]. unfold _update_thing. split.
  - intros Hnone. rewrite Hnone.
    rewrite bool_decide_eq_false_2 by (by intros [? ?]).
    reflexivity.
  - intros v data st' Hsome Hcall. rewrite Hsome.
    rewrite bool_decide_eq_true_2 by eauto.
    unfold get. rewrite Hsome. cbn [default from_option id].
    unfold bind at 1, try_except, bind at 1, invoke. rewrite Hcall.
    reflexivity.
Qed.

(** C9.  On a thing-type table insert, update and delete raise
    [NotImplementedError]; the world is left as it was, so no client call
    has been made. *)
Theorem thing_type_mutations_not_implemented (self : AIC_fdw)
    (values newvalues : gmap string pyval) (rowid : pyval) (w : world St) :
  str_lower (table_type self) = "thing-type" →
  insert cl self values w = (Raise NotImplementedError, w)
  ∧ update cl self rowid newvalues w = (Raise NotImplementedError, w)
  ∧ delete cl self rowid w = (Raise NotImplementedError, w).
Proof.
  intros Hkind. unfold insert, update, delete. rewrite Hkind. by cbn.
Qed.

(** C10.  On a thing-group table insert, update and delete return [None];
    nothing is raised and the world is left as it was, so no client call
    has been made. *)
Theorem thing_group_mutations_do_nothing (self : AIC_fdw)
    (values newvalues : gmap string pyval) (rowid : pyval) (w : world St) :
  str_lower (table_type self) = "thing-group" →
  insert cl self values w = (Ret None, w)
  ∧ update cl self rowid newvalues w = (Ret None, w)
  ∧ delete cl self rowid w = (Ret None, w).
Proof.
  intros Hkind. unfold insert, update, delete. rewrite Hkind. by cbn.
Qed.

End Mutations.

(** ** The claims on concrete inputs *)

(** The instance of C6 for a scan of two devices that requests only
    [thing_name]. *)
Lemma thing_scan_column_gating_witness :
  ∃ rs cs,
    rows (execute stub_client stub_dumps stub_dumps 2 (stub_self "thing") []
            {[ "thing_name" ]} (stub_world two_devices ∅)).2
    = rows (stub_world two_devices ∅) ++ rs
    ∧ calls (execute stub_client stub_dumps stub_dumps 2 (stub_self "thing") []
               {[ "thing_name" ]} (stub_world two_devices ∅)).2
      = calls (stub_world two_devices ∅) ++ cs
    ∧ Forall (λ r, is_Some (r !! "thing_name")
                   ∧ ∀ k, k ≠ "thing_name" →
                          k ∉ ({[ "thing_name" ]} : gset string) →
                          r !! k = None) rs
    ∧ Forall (λ c, ("thing_groups" ∉ ({[ "thing_name" ]} : gset string) →
                    call_op c ≠ ListThingGroupsForThing)
                   ∧ ("thing_shadow_data" ∉ ({[ "thing_name" ]} : gset string) →
                      call_op c ≠ GetThingShadow)) cs
    ∧ (({[ "thing_name" ]} : gset string) = {[ "thing_name" ]} →
       Forall (λ c, call_op c ≠ ListThingGroupsForThing
                    ∧ call_op c ≠ GetThingShadow) cs).
Proof.
  apply (thing_scan_column_gating stub_client stub_dumps stub_dumps 2
           (stub_self "thing") [] {[ "thing_name" ]}
           (stub_world two_devices ∅)).
  - exists stub_boto3, (stub_options "thing"), (stub_world [] ∅), (stub_world [] ∅).
    vm_compute. reflexivity.
  - reflexivity.
Defined.

(** C8 as stated fails on the code: an equality predicate with the empty
    string as value yields no filter, and of two equality predicates the
    later one overrides the earlier. *)
Lemma thing_scan_filter_counterexample :
  (type_name_equality (type_equals "") = true
   ∧ ∃ c, calls (execute stub_client stub_dumps stub_dumps 1
                   (stub_self "thing") [type_equals ""] {[ "thing_name" ]}
                   (stub_world two_devices ∅)).2 = [c]
          ∧ call_op c = ListThings
          ∧ call_args c !! "thingTypeName" ≠ Some (value (type_equals "")))
  ∧ (type_name_equality (type_equals "a") = true
     ∧ ∃ c, calls (execute stub_client stub_dumps stub_dumps 1
                     (stub_self "thing") [type_equals "a"; type_equals "b"]
                     {[ "thing_name" ]} (stub_world two_devices ∅)).2 = [c]
            ∧ call_op c = ListThings
            ∧ call_args c !! "thingTypeName"
              ≠ Some (value (type_equals "a"))).
Proof.
  split; (split; [reflexivity|]); eexists;
    (split; [vm_compute; reflexivity|]); (split; [reflexivity|]);
    vm_compute; discriminate.
Qed.

(** The instance of C8 for the predicates [= 'a'], [= 'b'] and a LIKE
    predicate after them. *)
Lemma thing_scan_filter_witness :
  ∃ cs,
    calls (execute stub_client stub_dumps stub_dumps 1 (stub_self "thing")
             ([type_equals "a"] ++ type_equals "b" :: [like_abc])
             {[ "thing_name" ]} (stub_world two_devices ∅)).2
    = calls (stub_world two_devices ∅) ++ cs
    ∧ Forall (λ c, call_op c = ListThings →
                   call_args c !! "thingTypeName"
                   = Some (value (type_equals "b"))) cs
    ∧ ((0 < 1)%nat → ∃ c cs', cs = c :: cs' ∧ call_op c = ListThings).
Proof.
  apply (thing_scan_filter_is_last_equality stub_client stub_dumps stub_dumps
           1 (stub_self "thing") [type_equals "a"] [like_abc]
           (type_equals "b") {[ "thing_name" ]} (stub_world two_devices ∅)).
  - reflexivity.
  - reflexivity.
  - repeat constructor.
  - reflexivity.
Defined.

(** C4 as stated fails on the code: after a lookup that raises
    [ClientError] the row does carry an entry for [thing_shadow_data]
    (holding [None]); and a lookup that fails in any other way aborts the
    scan, after a line logged at level [ERROR], before any row of the page
    is yielded. *)
Lemma shadow_failure_counterexample :
  (∃ rA rB,
     rows (execute stub_client stub_dumps stub_dumps 1 (stub_self "thing") []
             {[ "thing_name"; "thing_shadow_data" ]}
             (stub_world two_devices ∅)).2 = [rA; rB]
     ∧ rA !! "thing_name" = Some (VStr "A")
     ∧ rA !! "thing_shadow_data" ≠ None)
  ∧ (execute stub_client stub_dumps stub_dumps 1 (stub_self "thing") []
       {[ "thing_name"; "thing_shadow_data" ]}
       (stub_world two_devices
          {[ "A" := inl (OtherException "EndpointConnectionError") ]})).1
    = Abort
  ∧ rows (execute stub_client stub_dumps stub_dumps 1 (stub_self "thing") []
            {[ "thing_name"; "thing_shadow_data" ]}
            (stub_world two_devices
               {[ "A" := inl (OtherException "EndpointConnectionError") ]})).2
    = []
  ∧ logs (execute stub_client stub_dumps stub_dumps 1 (stub_self "thing") []
            {[ "thing_name"; "thing_shadow_data" ]}
            (stub_world two_devices
               {[ "A" := inl (OtherException "EndpointConnectionError") ]})).2
    = [{| log_lvl := ERROR;
          log_format := "Unknown error {}";
          log_params := [VStr "EndpointConnectionError"] |}].
Proof.
  split; [|repeat split; vm_compute; reflexivity].
  exists (<["thing_shadow_data" := VNone]> {[ "thing_name" := VStr "A" ]}),
    (<["thing_shadow_data" := VNone]> {[ "thing_name" := VStr "B" ]}).
  split; [vm_compute; reflexivity|].
  split; [vm_compute; reflexivity|].
  vm_compute. discriminate.
Qed.

(** The instance of C4 for device [A] followed by device [B]: once with no
    shadow for [A], once with a lookup for [A] that cannot reach the
    backend. *)
Lemma shadow_failure_witness :
  (∃ w1,
     thing_rows stub_client stub_dumps 1 (stub_self "thing")
       {[ "thing_name"; "thing_shadow_data" ]} (device "A" :: [device "B"])
       (stub_world [] ∅)
     = thing_rows stub_client stub_dumps 1 (stub_self "thing")
         {[ "thing_name"; "thing_shadow_data" ]} [device "B"] w1
     ∧ rows w1 = rows (stub_world [] ∅)
                 ++ [<["thing_shadow_data" := VNone]>
                       {[ "thing_name" := VStr "A" ]}]
     ∧ no_error_logged (stub_world [] ∅) w1)
  ∧ thing_rows stub_client stub_dumps 1 (stub_self "thing")
      {[ "thing_name"; "thing_shadow_data" ]} (device "A" :: [device "B"])
      (stub_world []
         {[ "A" := inl (OtherException "EndpointConnectionError") ]})
    = (Abort,
       {| backend :=
            {| stub_pages := [];
               stub_shadows :=
                 {[ "A" := inl (OtherException "EndpointConnectionError") ]}
            |};
          calls := [{| call_op := GetThingShadow;
                       call_args := {[ "thingName" := VStr "A" ]} |}];
          logs := [{| log_lvl := ERROR;
                      log_format := "Unknown error {}";
                      log_params := [VStr "EndpointConnectionError"] |}];
          rows := [] |}).
Proof.
  split.
  - apply (proj1 (shadow_failure_outcomes stub_client stub_dumps 1
                    (stub_self "thing") {[ "thing_name"; "thing_shadow_data" ]}
                    (device "A") [device "B"] (stub_world [] ∅)
                    (stub_world [] ∅) {[ "thing_name" := VStr "A" ]}
                    ltac:(apply (bool_decide_unpack _); vm_compute; exact I)
                    ltac:(vm_compute; reflexivity))).
    left. exists "ResourceNotFoundException",
      {| stub_pages := []; stub_shadows := ∅ |}.
    vm_compute. reflexivity.
  - apply (proj2 (shadow_failure_outcomes stub_client stub_dumps 1
                    (stub_self "thing") {[ "thing_name"; "thing_shadow_data" ]}
                    (device "A") [device "B"]
                    (stub_world []
                       {[ "A" := inl (OtherException
                                        "EndpointConnectionError") ]})
                    (stub_world []
                       {[ "A" := inl (OtherException
                                        "EndpointConnectionError") ]})
                    {[ "thing_name" := VStr "A" ]}
                    ltac:(apply (bool_decide_unpack _); vm_compute; exact I)
                    ltac:(vm_compute; reflexivity))
             (OtherException "EndpointConnectionError")
             {| stub_pages := [];
                stub_shadows :=
                  {[ "A" := inl (OtherException "EndpointConnectionError") ]}
             |}).
    + vm_compute. reflexivity.
    + intros m. discriminate.
Defined.

(** The instance of C5 for a scan of things over three pages of 250, 250
    and 10 devices, with every column requested. *)
Lemma fetch_loop_pagination_witness :
  ∃ cs rs,
    execute paging_client stub_dumps stub_dumps 3 (stub_self "thing") []
      all_thing_columns (fresh_world (three_pages_of "thingName"))
    = (Ret tt,
       {| backend := [];
          calls := calls (fresh_world (three_pages_of "thingName")) ++ cs;
          logs := logs (fresh_world (three_pages_of "thingName"));
          rows := rows (fresh_world (three_pages_of "thingName")) ++ rs |})
    ∧ length rs
      = length (concat (resp_items
                          <$> [item_page "thingName" 0 250 (Some "page2");
                               item_page "thingName" 250 250 (Some "page3")]
                              ++ [item_page "thingName" 500 10 None]))
    ∧ length (List.filter is_primary_list cs)
      = length ([item_page "thingName" 0 250 (Some "page2");
                 item_page "thingName" 250 250 (Some "page3")]
                ++ [item_page "thingName" 500 10 None])
    ∧ Forall (λ c, call_op c = list_operation_of_kind (stub_self "thing")
                   ∧ call_args c !! "maxResults" = Some (VInt 250))
        (List.filter is_primary_list cs)
    ∧ (∀ c, List.filter is_primary_list cs !! 0%nat = Some c →
            call_args c !! "nextToken" = None)
    ∧ (∀ i p c,
         ([item_page "thingName" 0 250 (Some "page2");
           item_page "thingName" 250 250 (Some "page3")]
          ++ [item_page "thingName" 500 10 None]) !! i = Some p →
         List.filter is_primary_list cs !! S i = Some c →
         call_args c !! "nextToken" = Some (token_val (resp_nextToken p))).
Proof.
  apply (proj1 fetch_loop_pagination 3%nat (stub_self "thing") []
           all_thing_columns
           [item_page "thingName" 0 250 (Some "page2");
            item_page "thingName" 250 250 (Some "page3")]
           (item_page "thingName" 500 10 None) []
           (fresh_world (three_pages_of "thingName")) stub_dumps stub_dumps).
  - exists stub_boto3, (stub_options "thing"),
      (fresh_world (@nil list_response)), (fresh_world (@nil list_response)).
    vm_compute. reflexivity.
  - intros v. exists "json". reflexivity.
  - intros v. exists "json". reflexivity.
  - repeat constructor.
  - reflexivity.
  - reflexivity.
  - cbn. lia.
Defined.

(** The instance of C7 for an update without and an update with a shadow
    document. *)
Lemma update_thing_writes_only_shadow_witness :
  update stub_client (stub_self "thing") (VStr "dev1")
    {[ "thing_name" := VStr "dev1" ]} (stub_world [] ∅)
  = (Ret (Some {[ "thing_name" := VStr "dev1" ]}), stub_world [] ∅)
  ∧ update stub_client (stub_self "thing") (VStr "dev1")
      (<["thing_shadow_data" := VStr "{}"]> {[ "thing_name" := VStr "dev1" ]})
      (stub_world [] ∅)
    = (Ret (Some (<["thing_shadow_data" := VBytes "{}"]>
                    (<["thing_shadow_data" := VStr "{}"]>
                       {[ "thing_name" := VStr "dev1" ]}))),
       {| backend := {| stub_pages := [];
                        stub_shadows := {[ "dev1" := inr (Some "{}") ]} |};
          calls := calls (stub_world [] ∅)
                   ++ [{| call_op := UpdateThingShadow;
                          call_args := <["payload" := VStr "{}"]>
                                         {[ "thingName" := VStr "dev1" ]} |}];
          logs := logs (stub_world [] ∅);
          rows := rows (stub_world [] ∅) |}).
Proof.
  split.
  - apply (proj1 (update_thing_writes_only_shadow stub_client
                    (stub_self "thing") (VStr "dev1")
                    {[ "thing_name" := VStr "dev1" ]} (stub_world [] ∅)
                    eq_refl)).
    vm_compute. reflexivity.
  - apply (proj2 (update_thing_writes_only_shadow stub_client
                    (stub_self "thing") (VStr "dev1")
                    (<["thing_shadow_data" := VStr "{}"]>
                       {[ "thing_name" := VStr "dev1" ]})
                    (stub_world [] ∅) eq_refl)).
    + vm_compute. reflexivity.
    + vm_compute. reflexivity.
Defined.

(** The instance of C9 for a table declared as [Thing-Type]. *)
Lemma thing_type_mutations_witness :
  insert stub_client (stub_self "Thing-Type") typed_device (stub_world [] ∅)
  = (Raise NotImplementedError, stub_world [] ∅)
  ∧ update stub_client (stub_self "Thing-Type") (VStr "dev1") typed_device
      (stub_world [] ∅)
    = (Raise NotImplementedError, stub_world [] ∅)
  ∧ delete stub_client (stub_self "Thing-Type") (VStr "dev1")
      (stub_world [] ∅)
    = (Raise NotImplementedError, stub_world [] ∅).
Proof.
  apply (thing_type_mutations_not_implemented stub_client
           (stub_self "Thing-Type") typed_device typed_device (VStr "dev1")
           (stub_world [] ∅)).
  reflexivity.
Defined.

(** The instance of C10 for a table declared as [thing-group]. *)
Lemma thing_group_mutations_witness :
  insert stub_client (stub_self "thing-group") typed_device (stub_world [] ∅)
  = (Ret None, stub_world [] ∅)
  ∧ update stub_client (stub_self "thing-group") (VStr "dev1") typed_device
      (stub_world [] ∅)
    = (Ret None, stub_world [] ∅)
  ∧ delete stub_client (stub_self "thing-group") (VStr "dev1")
      (stub_world [] ∅)
    = (Ret None, stub_world [] ∅).
Proof.
  apply (thing_group_mutations_do_nothing stub_client
           (stub_self "thing-group") typed_device typed_device (VStr "dev1")
           (stub_world [] ∅)).
  reflexivity.
Defined.

(** ** Construction, schema and path keys *)

Lemma client_args_credentials ak sk reg endpoint_url :
  credentials_kwargs ak sk reg endpoint_url
    (client_args ak sk reg endpoint_url).
Proof.
  unfold credentials_kwargs, client_args.
  destruct endpoint_url as [url|]; [destruct (String.eqb url "")|];
    repeat split; try (by simplify_map_eq);
    intros k H1 H2 H3 H4; by simplify_map_eq.
Qed.

(** X1.  Take options with a region, an access key, a secret key and a
    table type that lowers to one of the three kinds (the default being
    [thing]).  The constructor then creates the two clients, [iot] first and
    [iot-data] second, both with the keys, the region and (when non-empty)
    the endpoint as arguments.  If both creations succeed it returns without
    logging: the instance keeps the table type as written, has the page-size
    cap 250 and has as row-id column the identity column of its kind.  If a
    creation raises, the exception escapes the constructor, unlogged. *)
Theorem init_outcome_with_complete_options {St : Type}
    (boto3_client : string → gmap string string → exn + unit)
    (fdw_options : gmap string string) (w : world St) (r a s : string) :
  fdw_options !! "region" = Some r →
  fdw_options !! "aws_access_key" = Some a →
  fdw_options !! "aws_secret_key" = Some s →
  str_lower (default "thing" (fdw_options !! "table_type")) = "thing"
  ∨ str_lower (default "thing" (fdw_options !! "table_type")) = "thing-type"
  ∨ str_lower (default "thing" (fdw_options !! "table_type"))
    = "thing-group" →
  ((∀ kw, credentials_kwargs a s r (fdw_options !! "url") kw →
          boto3_client "iot" kw = inr tt
          ∧ boto3_client "iot-data" kw = inr tt) →
   ∃ self,
     __init__ boto3_client fdw_options w = (Ret self, w)
     ∧ table_type self = default "thing" (fdw_options !! "table_type")
     ∧ MAX_RESULTS self = 250
     ∧ endpoint_url self = fdw_options !! "url"
     ∧ rowid_column self
       = (if String.eqb (str_lower (table_type self)) "thing"
          then "thing_name"
          else if String.eqb (str_lower (table_type self)) "thing-type"
               then "thing_type_name"
               else "thing_group_name"))
  ∧ (∀ e, (∀ kw, credentials_kwargs a s r (fdw_options !! "url") kw →
                 boto3_client "iot" kw = inl e) →
          __init__ boto3_client fdw_options w = (Raise e, w))
  ∧ (∀ e, (∀ kw, credentials_kwargs a s r (fdw_options !! "url") kw →
                 boto3_client "iot" kw = inr tt
                 ∧ boto3_client "iot-data" kw = inl e) →
          __init__ boto3_client fdw_options w = (Raise e, w)).
Proof.
  intros Hr Ha Hs Hkind.
  pose proof (client_args_credentials a s r (fdw_options !! "url")) as Hkw.
  unfold __init__, bind, ret, lift, raise. rewrite Hr, Ha, Hs.
  destruct (row_id_of_table_type_cases
              (default "thing" (fdw_options !! "table_type")))
    as [[Hk ->]|[[Hk ->]|[[Hk ->]|(N1 & N2 & N3 & _)]]];
    [| | |exfalso; destruct Hkind as [?|[?|?]]; done];
    (split; [|split]);
    try (intros Hc; destruct (Hc _ Hkw) as [-> ->];
         eexists; (split; [reflexivity|]); cbn; rewrite Hk; done);
    try (intros e Hc; by rewrite (Hc _ Hkw));
    try (intros e Hc; destruct (Hc _ Hkw) as [-> ->]; done).
Qed.

(** X2.  When the region, the access key or the secret key is missing, or
    the table type lowers to none of the three kinds, the constructor ends
    in an abort after exactly one line logged at level [ERROR], without any
    client call. *)
Theorem init_rejects_incomplete_options {St : Type}
    (boto3_client : string → gmap string string → exn + unit)
    (fdw_options : gmap string string) (w : world St) :
  fdw_options !! "region" = None
  ∨ fdw_options !! "aws_access_key" = None
  ∨ fdw_options !! "aws_secret_key" = None
  ∨ (str_lower (default "thing" (fdw_options !! "table_type")) ≠ "thing"
     ∧ str_lower (default "thing" (fdw_options !! "table_type"))
       ≠ "thing-type"
     ∧ str_lower (default "thing" (fdw_options !! "table_type"))
       ≠ "thing-group") →
  (__init__ boto3_client fdw_options w).1 = Abort
  ∧ calls (__init__ boto3_client fdw_options w).2 = calls w
  ∧ ∃ l, logs (__init__ boto3_client fdw_options w).2 = logs w ++ [l]
         ∧ log_lvl l = ERROR.
Proof.
  intros H. unfold __init__, bind, ret, log_to_postgres.
  destruct (fdw_options !! "region") as [r|]; [|cbn; eauto].
  destruct (fdw_options !! "aws_access_key") as [a|]; [|cbn; eauto].
  destruct (fdw_options !! "aws_secret_key") as [s|]; [|cbn; eauto].
  destruct H as [?|[?|[?|(N1 & N2 & N3)]]]; try discriminate.
  destruct (row_id_of_table_type_cases
              (default "thing" (fdw_options !! "table_type")))
    as [[Hk _]|[[Hk _]|[[Hk _]|(_ & _ & _ & ->)]]]; try done.
  cbn. eauto.
Qed.

(** X3.  Every table that [import_schema] declares can be opened: with the
    table's own options plus a region and the two keys, and provided the
    creation of the two clients succeeds, the constructor returns, the
    row-id column it derives is the first column the table declares, and the
    only path key is that column. *)
Theorem imported_tables_have_their_row_id {St : Type}
    (boto3_client : string → gmap string string → exn + unit)
    (schema : string) (t : TableDefinition)
    (fdw_options : gmap string string) (w : world St) (r a s : string) :
  t ∈ import_schema schema →
  fdw_options !! "table_type" = table_options t !! "table_type" →
  fdw_options !! "region" = Some r →
  fdw_options !! "aws_access_key" = Some a →
  fdw_options !! "aws_secret_key" = Some s →
  (∀ service kw, credentials_kwargs a s r (fdw_options !! "url") kw →
                 boto3_client service kw = inr tt) →
  ∃ self c,
    __init__ boto3_client fdw_options w = (Ret self, w)
    ∧ head (table_columns t) = Some c
    ∧ column_name c = rowid_column self
    ∧ get_path_keys self = [([column_name c], 1)].
Proof.
  intros Ht Hopt Hr Ha Hs Hc.
  pose proof (client_args_credentials a s r (fdw_options !! "url")) as Hkw.
  unfold __init__, bind, ret, lift. rewrite Hr, Ha, Hs, Hopt.
  rewrite !(Hc _ _ Hkw).
  unfold import_schema in Ht.
  repeat (apply elem_of_cons in Ht as [->|Ht]);
    [| | |by apply elem_of_nil in Ht];
    cbn [table_options table_columns head];
    rewrite lookup_singleton_eq; cbn;
    do 2 eexists; (split; [reflexivity|]); done.
Qed.

(** ** What every scan keeps *)

Section ScanInvariants.

Context {St : Type} (cl : client St).
Context (dumps dumps_default_str : pyval → exn + string).
Implicit Types (Prow : gmap string pyval → Prop) (Pcall : api_call → Prop).

Lemma emits_thing_groups_more_args Prow Pcall fuel self thing groups tok :
  (∀ tok', Pcall {| call_op := ListThingGroupsForThing;
                    call_args := <["nextToken" := tok']>
                                   (membership_args self thing) |}) →
  emits Prow Pcall (thing_groups_more cl fuel self thing groups tok).
Proof.
  intros H. revert groups tok.
  induction fuel as [|fuel IH]; intros groups tok; cbn [thing_groups_more].
  - apply emits_if; [apply emits_out_of_fuel | apply emits_ret].
  - apply emits_if; [|apply emits_ret].
    apply emits_bind; [apply emits_invoke, H|]. intros response. apply IH.
Qed.

Lemma emits_thing_groups_for_thing_args Prow Pcall fuel self thing :
  Pcall {| call_op := ListThingGroupsForThing;
           call_args := membership_args self thing |} →
  (∀ tok', Pcall {| call_op := ListThingGroupsForThing;
                    call_args := <["nextToken" := tok']>
                                   (membership_args self thing) |}) →
  emits Prow Pcall (_thing_groups_for_thing cl dumps fuel self thing).
Proof.
  intros H0 H. unfold _thing_groups_for_thing. apply emits_try_except.
  - apply emits_bind; [apply emits_invoke, H0|]. intros response.
    apply emits_bind; [by apply emits_thing_groups_more_args|].
    intros groups. apply emits_dumps_val.
  - intros e.
    destruct e; (apply emits_bind; [apply emits_log|]; intros; apply emits_ret).
Qed.

Lemma emits_thing_shadow_data_args Prow Pcall thing :
  Pcall {| call_op := GetThingShadow;
           call_args := {[ "thingName" := thing ]} |} →
  emits Prow Pcall (_thing_shadow_data cl thing).
Proof.
  intros H. unfold _thing_shadow_data. apply emits_try_except.
  - apply emits_bind; [by apply emits_invoke|]. intros shadow.
    destruct (resp_payload shadow); apply emits_ret.
  - intros e.
    destruct e; (apply emits_bind; [apply emits_log|]; intros; apply emits_ret).
Qed.

Lemma emits_thing_pages_args Prow Pcall fuel self columns filter tok :
  (∀ tok', Pcall {| call_op := ListThings;
                    call_args := list_call_args self tok'
                                   "thingTypeName" filter |}) →
  (∀ thing, Pcall {| call_op := ListThingGroupsForThing;
                     call_args := membership_args self thing |}) →
  (∀ thing tok', Pcall {| call_op := ListThingGroupsForThing;
                          call_args := <["nextToken" := tok']>
                                         (membership_args self thing) |}) →
  (∀ thing, Pcall {| call_op := GetThingShadow;
                     call_args := {[ "thingName" := thing ]} |}) →
  (∀ r, row_within (_row_id_column self) columns r → Prow r) →
  emits Prow Pcall (thing_pages cl dumps fuel self columns filter tok).
Proof.
  intros Hl Hg0 Hg Hs Hrow. revert tok.
  induction fuel as [|fuel IH]; intros tok; [apply emits_out_of_fuel|].
  cbn [thing_pages].
  apply emits_bind; [apply emits_invoke, Hl|]. intros response.
  apply emits_bind; [|intros _; apply emits_if; [apply IH | apply emits_ret]].
  unfold thing_rows. apply emits_for_each. intros thing.
  eapply emits_bind_post; [|apply returns_thing_row|].
  - unfold thing_row.
    apply emits_bind.
    { apply emits_update_if_m. intros _.
      by apply emits_thing_groups_for_thing_args. }
    intros row1. apply emits_bind.
    { apply emits_update_if_m. intros _. apply emits_dumps_val. }
    intros row2. apply emits_update_if_m. intros _.
    by apply emits_thing_shadow_data_args.
  - intros row Hin. apply emits_yield. auto.
Qed.

Lemma emits_thing_type_item Prow Pcall self columns thing_type name :
  (∀ r, row_within (_row_id_column self) columns r → Prow r) →
  emits Prow Pcall
    (thing_type_item dumps dumps_default_str self columns thing_type name
     : M St pyval).
Proof.
  intros Hrow. unfold thing_type_item.
  eapply emits_bind_post.
  - apply emits_update_if_m. intros _. apply emits_dumps_val.
  - apply returns_update_if_m, row_within_update_if, row_within_singleton.
  - intros row1 H1. cbn beta. eapply emits_bind_post.
    + apply emits_update_if_m. intros _. apply emits_dumps_val.
    + by apply returns_update_if_m.
    + intros row2 H2. cbn beta.
      apply emits_bind; [apply emits_yield; auto|].
      intros _. apply emits_ret.
Qed.

Lemma emits_thing_type_pages Prow Pcall fuel self columns filter tok :
  (∀ tok' filter', Pcall {| call_op := ListThingTypes;
                            call_args := list_call_args self tok'
                                           "thingTypeName" filter' |}) →
  (∀ r, row_within (_row_id_column self) columns r → Prow r) →
  emits Prow Pcall
    (thing_type_pages cl dumps dumps_default_str fuel self columns filter tok).
Proof.
  intros Hl Hrow. revert filter tok.
  induction fuel as [|fuel IH]; intros filter tok; [apply emits_out_of_fuel|].
  cbn [thing_type_pages].
  apply emits_bind; [apply emits_invoke, Hl|]. intros response.
  apply emits_bind.
  - apply emits_for_each_var. intros thing_type name.
    by apply emits_thing_type_item.
  - intros name. apply emits_if; [apply IH | apply emits_ret].
Qed.

Lemma row_within_thing_group_row self columns thing_type :
  row_within (_row_id_column self) columns
    (thing_group_row self columns thing_type).
Proof.
  unfold thing_group_row. apply row_within_update_if, row_within_singleton.
Qed.

Lemma emits_thing_group_pages Prow Pcall fuel self columns prefix tok :
  (∀ tok', Pcall {| call_op := ListThingGroups;
                    call_args := list_call_args self tok'
                                   "namePrefixFilter" prefix |}) →
  (∀ r, row_within (_row_id_column self) columns r → Prow r) →
  emits Prow Pcall (thing_group_pages cl fuel self columns prefix tok).
Proof.
  intros Hl Hrow. revert tok.
  induction fuel as [|fuel IH]; intros tok; [apply emits_out_of_fuel|].
  cbn [thing_group_pages].
  apply emits_bind; [apply emits_invoke, Hl|]. intros response.
  apply emits_bind.
  - apply emits_for_each. intros thing_type. apply emits_yield.
    apply Hrow, row_within_thing_group_row.
  - intros _. apply emits_if; [apply IH | apply emits_ret].
Qed.

Lemma emits_execute_thing_group Prow Pcall fuel self quals columns :
  LIKE_WILDCARD self = "%" →
  (∀ tok', Pcall {| call_op := ListThingGroups;
                    call_args := list_call_args self tok' "namePrefixFilter"
                                   (thing_group_prefix_of_quals quals) |}) →
  (∀ r, row_within (_row_id_column self) columns r → Prow r) →
  emits Prow Pcall (_execute_thing_group cl fuel self quals columns).
Proof.
  intros Hw Hl Hrow w. unfold _execute_thing_group, bind.
  rewrite thing_group_prefix_loop by done.
  apply emits_try_except.
  - by apply emits_thing_group_pages.
  - intros e. apply emits_execute_handler.
Qed.

Lemma read_call_list self op tok key v :
  MAX_RESULTS self = 250 → key ≠ "maxResults" →
  op = ListThings ∨ op = ListThingTypes ∨ op = ListThingGroups →
  read_call {| call_op := op; call_args := list_call_args self tok key v |}.
Proof.
  intros Hmax Hkey Hop. unfold read_call. cbn [call_op call_args].
  rewrite list_call_args_max_results, Hmax by done.
  by destruct Hop as [->|[->| ->]].
Qed.

Lemma read_call_membership self thing :
  MAX_RESULTS self = 250 →
  read_call {| call_op := ListThingGroupsForThing;
               call_args := membership_args self thing |}
  ∧ ∀ tok, read_call {| call_op := ListThingGroupsForThing;
                        call_args := <["nextToken" := tok]>
                                       (membership_args self thing) |}.
Proof.
  intros Hmax. unfold read_call, membership_args. cbn [call_op call_args].
  split; [|intros tok; rewrite lookup_insert_ne by done];
    by rewrite lookup_insert_eq, Hmax.
Qed.

(** Rows and calls of a scan of any kind. *)
Lemma emits_execute fuel self quals columns :
  constructed St self →
  emits (row_within (rowid_column self) columns) read_call
    (execute cl dumps dumps_default_str fuel self quals columns).
Proof.
  intros Hself. destruct (constructed_inv _ _ Hself) as (Hmax & Hwild & _).
  unfold execute, rowid_column.
  repeat apply emits_if; [| | |apply emits_ret].
  - unfold _execute_thing. apply emits_try_except;
      [|intros e; apply emits_execute_handler].
    apply emits_thing_pages_args; try done.
    + intros tok. apply read_call_list; auto.
    + intros thing. by apply read_call_membership.
    + intros thing tok. by apply read_call_membership.
    + intros thing. unfold read_call. cbn. eauto.
  - unfold _execute_thing_type. apply emits_try_except;
      [|intros e; apply emits_execute_handler].
    apply emits_thing_type_pages; [|done].
    intros tok filter. apply read_call_list; auto.
  - apply emits_execute_thing_group; [done| |done].
    intros tok. apply read_call_list; auto.
Qed.

(** X4.  Whatever the kind of the table, the backend and the predicates,
    every row a scan yields has an entry under the row-id column of the
    instance and, besides it, entries for requested columns only. *)
Theorem scan_rows_carry_row_id (fuel : nat) (self : AIC_fdw)
    (quals : list Qual) (columns : gset string) (w : world St) :
  constructed St self →
  ∃ rs,
    rows (execute cl dumps dumps_default_str fuel self quals columns w).2
    = rows w ++ rs
    ∧ Forall (λ r, is_Some (r !! rowid_column self)
                   ∧ ∀ k, k ≠ rowid_column self → k ∉ columns →
                          r !! k = None) rs.
Proof.
  intros Hself.
  destruct (emits_execute fuel self quals columns Hself w)
    as (rs & cs & Hr & _ & HP & _).
  by exists rs.
Qed.

(** X5.  A scan only reads.  Every call it makes is one of the four list
    operations, carrying [maxResults = 250], or [get_thing_shadow] with the
    thing's name as its only argument; it never creates or deletes a thing
    and never updates a shadow. *)
Theorem scan_only_reads (fuel : nat) (self : AIC_fdw)
    (quals : list Qual) (columns : gset string) (w : world St) :
  constructed St self →
  ∃ cs,
    calls (execute cl dumps dumps_default_str fuel self quals columns w).2
    = calls w ++ cs
    ∧ Forall (λ c,
        ((call_op c = ListThings ∨ call_op c = ListThingTypes
          ∨ call_op c = ListThingGroups
          ∨ call_op c = ListThingGroupsForThing)
         ∧ call_args c !! "maxResults" = Some (VInt 250))
        ∨ (call_op c = GetThingShadow
           ∧ ∃ thing, call_args c = {[ "thingName" := thing ]})) cs.
Proof.
  intros Hself.
  destruct (emits_execute fuel self quals columns Hself w)
    as (rs & cs & _ & Hc & _ & HQ).
  exists cs. split; [done|].
  eapply Forall_impl; [exact HQ|].
  intros [op kw]. unfold read_call. cbn [call_op call_args].
  destruct op; intros H; try done; eauto 10.
Qed.

End ScanInvariants.

(** ** The filters, for every backend *)

Lemma thing_group_prefix_of_quals_last pre q post :
  group_name_equality q = true →
  Forall (λ q', group_name_equality q' = false) post →
  thing_group_prefix_of_quals (pre ++ q :: post) = value q.
Proof.
  intros Hq Hpost. unfold thing_group_prefix_of_quals.
  rewrite fold_left_app. cbn [fold_left].
  unfold group_name_equality in Hq. rewrite Hq.
  generalize (value q). induction Hpost as [|q' post Hq' _ IH]; intros acc.
  - done.
  - cbn [fold_left]. unfold group_name_equality in Hq'. rewrite Hq'.
    apply IH.
Qed.

Lemma thing_group_prefix_of_quals_none quals :
  Forall (λ q, group_name_equality q = false) quals →
  thing_group_prefix_of_quals quals = VNone.
Proof.
  intros H. unfold thing_group_prefix_of_quals. generalize VNone.
  induction H as [|q quals Hq _ IH]; intros acc; [done|].
  cbn [fold_left]. unfold group_name_equality in Hq. rewrite Hq. apply IH.
Qed.

Section Filters.

Context {St : Type} (cl : client St).
Context (dumps dumps_default_str : pyval → exn + string).

(** X6.  In a scan of the thing kind whose predicates hold no equality
    predicate on the type name, no [list_things] call carries a
    [thingTypeName] argument, on the first page or on any later one. *)
Theorem thing_scan_unfiltered_without_equality (fuel : nat) (self : AIC_fdw)
    (quals : list Qual) (columns : gset string) (w : world St) :
  str_lower (table_type self) = "thing" →
  Forall (λ q, type_name_equality q = false) quals →
  ∃ cs,
    calls (execute cl dumps dumps_default_str fuel self quals columns w).2
    = calls w ++ cs
    ∧ Forall (λ c, call_op c = ListThings →
                   call_args c !! "thingTypeName" = None) cs.
Proof.
  intros Hkind Hquals.
  unfold execute. rewrite Hkind. cbn [String.eqb Ascii.eqb Bool.eqb].
  destruct (emits_execute_thing cl dumps (λ _, True)
              (λ c, call_op c = ListThings →
                    call_args c !! "thingTypeName" = None)
              fuel self quals columns) with (w := w)
    as (rs & cs & _ & Hc & _ & HQ); try done.
  - intros tok _. cbn [call_args].
    rewrite thing_type_name_of_quals_none by done.
    by apply list_call_args_no_filter.
  - by exists cs.
Qed.

(** X7.  In a scan of thing groups, when the last equality predicate on the
    group name has a truthy (non-empty) value, every [list_thing_groups]
    call carries exactly that value as [namePrefixFilter]. *)
Theorem group_scan_prefix_is_last_equality (fuel : nat) (self : AIC_fdw)
    (pre post : list Qual) (q : Qual) (columns : gset string) (w : world St) :
  constructed St self →
  str_lower (table_type self) = "thing-group" →
  group_name_equality q = true →
  Forall (λ q', group_name_equality q' = false) post →
  truthy (value q) = true →
  ∃ cs,
    calls (execute cl dumps dumps_default_str fuel self
             (pre ++ q :: post) columns w).2
    = calls w ++ cs
    ∧ Forall (λ c, call_op c = ListThingGroups
                   ∧ call_args c !! "namePrefixFilter" = Some (value q)) cs.
Proof.
  intros Hself Hkind Hq Hpost Hv.
  destruct (constructed_inv _ _ Hself) as (_ & Hwild & _).
  unfold execute. rewrite Hkind. cbn [String.eqb Ascii.eqb Bool.eqb].
  destruct (emits_execute_thing_group cl (λ _, True)
              (λ c, call_op c = ListThingGroups
                    ∧ call_args c !! "namePrefixFilter" = Some (value q))
              fuel self (pre ++ q :: post) columns) with (w := w)
    as (rs & cs & _ & Hc & _ & HQ); try done.
  - intros tok. split; [done|]. cbn [call_args].
    rewrite thing_group_prefix_of_quals_last by done.
    by apply list_call_args_filter.
  - by exists cs.
Qed.

(** X8.  Predicates the group scan cannot push down are ignored: when
    every predicate is on another field than the group name, or has an
    operator other than [=] and [~~], no call carries a [namePrefixFilter]
    argument. *)
Theorem group_scan_ignores_other_predicates (fuel : nat) (self : AIC_fdw)
    (quals : list Qual) (columns : gset string) (w : world St) :
  constructed St self →
  str_lower (table_type self) = "thing-group" →
  Forall (λ q, str_lower (field_name q) ≠ "thing_group_name"
               ∨ (operator q ≠ "=" ∧ operator q ≠ "~~")) quals →
  ∃ cs,
    calls (execute cl dumps dumps_default_str fuel self quals columns w).2
    = calls w ++ cs
    ∧ Forall (λ c, call_op c = ListThingGroups
                   ∧ call_args c !! "namePrefixFilter" = None) cs.
Proof.
  intros Hself Hkind Hquals.
  destruct (constructed_inv _ _ Hself) as (_ & Hwild & _).
  assert (Forall (λ q, group_name_equality q = false) quals) as Hnone.
  { eapply Forall_impl; [exact Hquals|]. intros q Hq.
    unfold group_name_equality. apply andb_false_iff.
    destruct Hq as [Hf|[Ho _]]; [left|right]; by apply String.eqb_neq. }
  unfold execute. rewrite Hkind. cbn [String.eqb Ascii.eqb Bool.eqb].
  destruct (emits_execute_thing_group cl (λ _, True)
              (λ c, call_op c = ListThingGroups
                    ∧ call_args c !! "namePrefixFilter" = None)
              fuel self quals columns) with (w := w)
    as (rs & cs & _ & Hc & _ & HQ); try done.
  - intros tok. split; [done|]. cbn [call_args].
    rewrite thing_group_prefix_of_quals_none by done.
    by apply list_call_args_no_filter.
  - by exists cs.
Qed.

(** X9.  A scan of thing types with a non-zero loop budget starts with a
    [list_thing_types] call without cursor.  That first call carries as
    [thingTypeName] exactly the value of the last equality predicate on the
    type name when that value is truthy, and no [thingTypeName] when there is
    no equality predicate on the type name. *)
Theorem thing_type_scan_first_call (fuel : nat) (self : AIC_fdw)
    (quals : list Qual) (columns : gset string) (w : world St) :
  str_lower (table_type self) = "thing-type" →
  ∃ c cs,
    calls (execute cl dumps dumps_default_str (S fuel) self
             quals columns w).2
    = calls w ++ c :: cs
    ∧ call_op c = ListThingTypes
    ∧ call_args c !! "nextToken" = None
    ∧ (∀ pre q post,
         quals = pre ++ q :: post →
         type_name_equality q = true →
         Forall (λ q', type_name_equality q' = false) post →
         truthy (value q) = true →
         call_args c !! "thingTypeName" = Some (value q))
    ∧ (Forall (λ q, type_name_equality q = false) quals →
       call_args c !! "thingTypeName" = None).
Proof.
  intros Hkind.
  unfold execute. rewrite Hkind. cbn [String.eqb Ascii.eqb Bool.eqb].
  unfold _execute_thing_type.
  destruct (calls_after_first_invoke (λ _, True) (λ _, True)
              ListThingTypes (list_thing_types cl)
              (list_call_args self VNone "thingTypeName"
                 (thing_type_name_of_quals quals))
              (λ response,
                 thing_type_name <-
                   for_each_var (resp_items response)
                     (thing_type_name_of_quals quals)
                     (thing_type_item dumps dumps_default_str self columns) ;;
                 if truthy (token_val (resp_nextToken response))
                 then thing_type_pages cl dumps dumps_default_str fuel self
                        columns thing_type_name
                        (token_val (resp_nextToken response))
                 else ret tt)
              (execute_handler
                 "No thing types from IoT core with ClientError {}")
              w) as (cs & Hc).
  - intros response. apply emits_bind.
    + apply emits_for_each_var. intros thing_type name.
      by apply emits_thing_type_item.
    + intros name. apply emits_if; [|apply emits_ret].
      by apply emits_thing_type_pages.
  - intros e. apply emits_execute_handler.
  - eexists _, cs. split; [exact Hc|]. split; [done|]. cbn [call_args].
    split; [by rewrite list_call_args_cursor|]. split.
    + intros pre q post -> Hq Hpost Hv.
      rewrite thing_type_name_of_quals_last by done.
      by apply list_call_args_filter.
    + intros Hnone. rewrite thing_type_name_of_quals_none by done.
      by apply list_call_args_no_filter.
Qed.

End Filters.

(** ** Failures *)

Section Failures.

Context {St : Type} (cl : client St).
Context (dumps dumps_default_str : pyval → exn + string).

Lemma never_raises_try_except {A} (m : M St A) (h : exn → M St A) :
  (∀ e, never_raises (h e)) → never_raises (try_except m h).
Proof.
  intros Hh w e. unfold try_except.
  destruct (m w) as [[a|e'| |] w1]; cbn; try discriminate. apply Hh.
Qed.

Lemma never_raises_execute_handler what e :
  never_raises (execute_handler what e : M St unit).
Proof. intros w e'. by destruct e. Qed.

(** X10.  No Python exception escapes from a scan: whatever the backend or
    the serialiser raises, the scan ends by returning or by an abort that
    was logged. *)
Theorem scan_never_raises (fuel : nat) (self : AIC_fdw)
    (quals : list Qual) (columns : gset string) (w : world St) (e : exn) :
  constructed St self →
  (execute cl dumps dumps_default_str fuel self quals columns w).1 ≠ Raise e.
Proof.
  intros Hself. destruct (constructed_inv _ _ Hself) as (_ & Hwild & _).
  unfold execute.
  destruct (String.eqb "thing" _).
  { apply never_raises_try_except. apply never_raises_execute_handler. }
  destruct (String.eqb "thing-type" _).
  { apply never_raises_try_except. apply never_raises_execute_handler. }
  destruct (String.eqb "thing-group" _); [|done].
  unfold _execute_thing_group, bind.
  rewrite thing_group_prefix_loop by done.
  apply never_raises_try_except. apply never_raises_execute_handler.
Qed.

(** X11.  When the first list call of a scan raises, whatever the
    exception, the scan aborts: that one call was made, one line was logged
    at level [ERROR] and no row was yielded. *)
Theorem scan_aborts_when_list_fails (fuel : nat) (self : AIC_fdw)
    (quals : list Qual) (columns : gset string) (w : world St)
    (e : exn) (st' : St) :
  constructed St self →
  (str_lower (table_type self) = "thing"
   ∧ list_things cl
       (list_call_args self VNone "thingTypeName"
          (thing_type_name_of_quals quals)) (backend w) = (inl e, st'))
  ∨ (str_lower (table_type self) = "thing-type"
     ∧ list_thing_types cl
         (list_call_args self VNone "thingTypeName"
            (thing_type_name_of_quals quals)) (backend w) = (inl e, st'))
  ∨ (str_lower (table_type self) = "thing-group"
     ∧ list_thing_groups cl
         (list_call_args self VNone "namePrefixFilter"
            (thing_group_prefix_of_quals quals)) (backend w) = (inl e, st')) →
  ∃ c l,
    execute cl dumps dumps_default_str (S fuel) self quals columns w
    = (Abort, {| backend := st';
                 calls := calls w ++ [c];
                 logs := logs w ++ [l];
                 rows := rows w |})
    ∧ log_lvl l = ERROR.
Proof.
  intros Hself H. destruct (constructed_inv _ _ Hself) as (_ & Hwild & _).
  unfold execute.
  destruct H as [[Hk Hcall]|[[Hk Hcall]|[Hk Hcall]]]; rewrite Hk;
    cbn [String.eqb Ascii.eqb Bool.eqb].
  - unfold _execute_thing, try_except. cbn [thing_pages].
    unfold bind at 1, invoke. rewrite Hcall.
    destruct e; do 2 eexists; (split; [reflexivity|done]).
  - unfold _execute_thing_type, try_except. cbn [thing_type_pages].
    unfold bind at 1, invoke. rewrite Hcall.
    destruct e; do 2 eexists; (split; [reflexivity|done]).
  - unfold _execute_thing_group. unfold bind at 1.
    rewrite thing_group_prefix_loop by done.
    unfold try_except. cbn [thing_group_pages].
    unfold thing_group_prefix_of_quals in Hcall.
    unfold bind at 1, invoke. rewrite Hcall.
    destruct e; do 2 eexists; (split; [reflexivity|done]).
Qed.

(** X12.  An insert on a thing table makes exactly one call,
    [create_thing], whose [thingName] is [values.get('thing_name')] and
    which has no argument besides [thingName] and [thingTypeName].  When the
    backend accepts, the values are returned as they came and nothing is
    logged; when it raises, the insert aborts after one line logged at level
    [ERROR]. *)
Theorem insert_thing_outcomes (self : AIC_fdw)
    (values : gmap string pyval) (w : world St) :
  str_lower (table_type self) = "thing" →
  ∃ kwargs : gmap string pyval,
    kwargs !! "thingName" = Some (get values "thing_name")
    ∧ (∀ k, k ≠ "thingName" → k ≠ "thingTypeName" → kwargs !! k = None)
    ∧ calls (insert cl self values w).2
      = calls w ++ [{| call_op := CreateThing; call_args := kwargs |}]
    ∧ backend (insert cl self values w).2
      = (create_thing cl kwargs (backend w)).2
    ∧ rows (insert cl self values w).2 = rows w
    ∧ match (create_thing cl kwargs (backend w)).1 with
      | inr _ => (insert cl self values w).1 = Ret (Some values)
                 ∧ logs (insert cl self values w).2 = logs w
      | inl _ => (insert cl self values w).1 = Abort
                 ∧ ∃ l, logs (insert cl self values w).2 = logs w ++ [l]
                        ∧ log_lvl l = ERROR
      end.
Proof.
  intros Hkind. unfold insert. rewrite Hkind.
  cbn [String.eqb Ascii.eqb Bool.eqb].
  unfold _insert_thing, try_except, bind, invoke.
  destruct (truthy (get values "thing_type")).
  - exists (<["thingTypeName" := get values "thing_type"]>
              {[ "thingName" := get values "thing_name" ]}).
    split; [by rewrite lookup_insert_ne, lookup_singleton_eq|].
    split; [intros k H1 H2; by rewrite lookup_insert_ne, lookup_singleton_ne|].
    match goal with |- context [create_thing cl ?kw ?st] =>
      destruct (create_thing cl kw st) as [[e|[]] st'] end;
      try destruct e; cbn; repeat split; eauto.
  - exists {[ "thingName" := get values "thing_name" ]}.
    split; [apply lookup_singleton_eq|].
    split; [intros k H1 H2; by rewrite lookup_singleton_ne|].
    match goal with |- context [create_thing cl ?kw ?st] =>
      destruct (create_thing cl kw st) as [[e|[]] st'] end;
      try destruct e; cbn; repeat split; eauto.
Qed.

(** X13.  A delete on a thing table makes exactly one call, [delete_thing]
    with the row id as [thingName].  When the backend accepts, [None] is
    returned and nothing is logged; when it raises, the delete aborts after
    one line logged at level [ERROR]. *)
Theorem delete_thing_outcomes (self : AIC_fdw) (rowid : pyval)
    (w : world St) :
  str_lower (table_type self) = "thing" →
  calls (delete cl self rowid w).2
  = calls w ++ [{| call_op := DeleteThing;
                   call_args := {[ "thingName" := rowid ]} |}]
  ∧ backend (delete cl self rowid w).2
    = (delete_thing cl {[ "thingName" := rowid ]} (backend w)).2
  ∧ rows (delete cl self rowid w).2 = rows w
  ∧ match (delete_thing cl {[ "thingName" := rowid ]} (backend w)).1 with
    | inr _ => (delete cl self rowid w).1 = Ret None
               ∧ logs (delete cl self rowid w).2 = logs w
    | inl _ => (delete cl self rowid w).1 = Abort
               ∧ ∃ l, logs (delete cl self rowid w).2 = logs w ++ [l]
                      ∧ log_lvl l = ERROR
    end.
Proof.
  intros Hkind. unfold delete. rewrite Hkind.
  cbn [String.eqb Ascii.eqb Bool.eqb].
  unfold _delete_thing, try_except, bind, invoke.
  destruct (delete_thing cl {[ "thingName" := rowid ]} (backend w))
    as [[e|[]] st'];
    try destruct e; cbn; repeat split; eauto.
Qed.

(** X14.  An update on a thing table that submits a shadow document and
    whose [update_thing_shadow] call raises aborts after one line logged at
    level [ERROR]; when the backend answers without a payload, the new
    values are returned as they came, the submitted document included. *)
Theorem update_thing_without_payload (self : AIC_fdw) (rowid v : pyval)
    (newvalues : gmap string pyval) (w : world St) :
  str_lower (table_type self) = "thing" →
  newvalues !! "thing_shadow_data" = Some v →
  calls (update cl self rowid newvalues w).2
  = calls w ++ [{| call_op := UpdateThingShadow;
                   call_args := <["payload" := v]>
                                  {[ "thingName" := rowid ]} |}]
  ∧ match (update_thing_shadow cl
             (<["payload" := v]> {[ "thingName" := rowid ]}) (backend w)).1
    with
    | inr {| resp_payload := None |} =>
        (update cl self rowid newvalues w).1 = Ret (Some newvalues)
        ∧ logs (update cl self rowid newvalues w).2 = logs w
    | inr {| resp_payload := Some data |} =>
        (update cl self rowid newvalues w).1
        = Ret (Some (<["thing_shadow_data" := VBytes data]> newvalues))
    | inl _ =>
        (update cl self rowid newvalues w).1 = Abort
        ∧ ∃ l, logs (update cl self rowid newvalues w).2 = logs w ++ [l]
               ∧ log_lvl l = ERROR
    end.
Proof.
  intros Hkind Hsome. unfold update. rewrite Hkind.
  cbn [String.eqb Ascii.eqb Bool.eqb]. unfold _update_thing.
  rewrite Hsome. rewrite bool_decide_eq_true_2 by eauto.
  unfold get. rewrite Hsome. cbn [default from_option id].
  unfold try_except, bind, invoke.
  destruct (update_thing_shadow cl _ (backend w)) as [[e|[[data|]]] st'];
    try destruct e; cbn; repeat split; eauto.
Qed.

(** X15.  A mutation raises only on a thing-type table, and then what it
    raises is [NotImplementedError]: on the other kinds insert, update and
    delete end by returning or by a logged abort. *)
Theorem mutations_raise_only_on_thing_type (self : AIC_fdw)
    (values newvalues : gmap string pyval) (rowid : pyval) (w : world St)
    (e : exn) :
  (insert cl self values w).1 = Raise e
  ∨ (update cl self rowid newvalues w).1 = Raise e
  ∨ (delete cl self rowid w).1 = Raise e →
  str_lower (table_type self) = "thing-type" ∧ e = NotImplementedError.
Proof.
  unfold insert, update, delete.
  destruct (String.eqb "thing" (str_lower (table_type self))) eqn:H1.
  { intros H. exfalso. revert H.
    unfold _insert_thing, _update_thing, _delete_thing,
      try_except, bind, invoke, log_to_postgres, ret.
    intros [H|[H|H]]; revert H; repeat case_match; simplify_eq; cbn;
      try discriminate. }
  destruct (String.eqb "thing-type" (str_lower (table_type self))) eqn:H2.
  - apply String.eqb_eq in H2. cbn. intros [H|[H|H]]; by simplify_eq.
  - cbn. intros [H|[H|H]]; discriminate.
Qed.

End Failures.

(** ** Scans against the scripted answers *)

Section Scripted.

Context (dumps dumps_default_str : pyval → exn + string).

(** The [while nextToken] loop against a script: the pages with a cursor
    are fetched one after the other, each call carrying the cursor of the
    page before, until the final answer. *)
Lemma thing_groups_more_script fuel self thing groups tok init a rest
    (w : world (list (exn + list_response))) :
  Forall (λ p, truthy (token_val (resp_nextToken p)) = true) init →
  truthy tok = true →
  match a with
  | inr last => truthy (token_val (resp_nextToken last)) = false
  | inl _ => True
  end →
  backend w = (inr <$> init) ++ a :: rest →
  (length init < fuel)%nat →
  thing_groups_more script_client fuel self thing groups tok w
  = (match a with
     | inr last =>
         Ret (groups ++ concat (resp_items <$> init) ++ resp_items last)
     | inl e => Raise e
     end,
     {| backend := rest;
        calls := calls w
                 ++ ((λ t, {| call_op := ListThingGroupsForThing;
                              call_args := <["nextToken" := t]>
                                             (membership_args self thing) |})
                       <$> tok :: ((λ p, token_val (resp_nextToken p))
                                     <$> init));
        logs := logs w;
        rows := rows w |}).
Proof.
  intros Hinit. revert fuel groups tok w.
  induction Hinit as [|p init Hp _ IH]; intros fuel groups tok w Htok Ha Hb Hf;
    (destruct fuel as [|fuel]; [cbn in Hf; lia|]);
    cbn [thing_groups_more]; rewrite Htok; unfold bind at 1, invoke;
    cbn [list_thing_groups_for_thing script_client]; unfold script_list;
    rewrite Hb; cbn [fmap list_fmap app].
  - destruct a as [e|last]; [reflexivity|].
    destruct fuel; cbn [thing_groups_more]; rewrite Ha; reflexivity.
  - lazy beta iota zeta.
    erewrite IH; [|exact Hp|exact Ha|reflexivity|cbn in Hf; lia].
    cbn. destruct a; rewrite <- ?app_assoc; reflexivity.
Qed.

(** X16.  The group memberships of a thing are drained before they are
    serialised: against a script of pages, all but the last with a cursor,
    [_thing_groups_for_thing] makes one call per page, the first with the
    thing's name and the page-size cap, each later one with the cursor of
    the page before in addition, and returns the serialisation of the
    groups of all pages in order. *)
Theorem memberships_drained (fuel : nat) (self : AIC_fdw) (thing : pyval)
    (init : list list_response) (last : list_response)
    (rest : list (exn + list_response))
    (w : world (list (exn + list_response))) (s : string) :
  Forall (λ p, truthy (token_val (resp_nextToken p)) = true) init →
  truthy (token_val (resp_nextToken last)) = false →
  backend w = (inr <$> init ++ [last]) ++ rest →
  (length init ≤ fuel)%nat →
  dumps (VList (VDict <$> concat (resp_items <$> init ++ [last]))) = inr s →
  _thing_groups_for_thing script_client dumps fuel self thing w
  = (Ret (VStr s),
     {| backend := rest;
        calls := calls w
                 ++ {| call_op := ListThingGroupsForThing;
                       call_args := membership_args self thing |}
                    :: ((λ p, {| call_op := ListThingGroupsForThing;
                                 call_args :=
                                   <["nextToken" :=
                                       token_val (resp_nextToken p)]>
                                     (membership_args self thing) |})
                          <$> init);
        logs := logs w;
        rows := rows w |}).
Proof.
  intros Hinit Hlast Hb Hf Hd.
  unfold _thing_groups_for_thing, try_except, bind at 1, invoke.
  cbn [list_thing_groups_for_thing script_client]. unfold script_list.
  rewrite Hb.
  destruct Hinit as [|p init Hp Hinit]; cbn [fmap list_fmap app].
  - unfold bind at 1.
    assert (∀ w', thing_groups_more script_client fuel self thing
                    (resp_items last) (token_val (resp_nextToken last)) w'
                  = (Ret (resp_items last), w')) as ->.
    { intros w'. destruct fuel; cbn [thing_groups_more]; by rewrite Hlast. }
    unfold dumps_val, bind, lift. cbn in Hd. rewrite app_nil_r in Hd.
    rewrite Hd. reflexivity.
  - unfold bind at 1.
    erewrite (thing_groups_more_script fuel self thing (resp_items p)
                (token_val (resp_nextToken p)) init (inr last) rest);
      [|exact Hinit|exact Hp|exact Hlast
       |cbn [backend]; by rewrite fmap_app, <- app_assoc
       |cbn in Hf; lia].
    assert (concat (resp_items <$> (p :: init) ++ [last])
            = resp_items p ++ concat (resp_items <$> init) ++ resp_items last)
      as Hcat.
    { cbn. rewrite fmap_app, concat_app. cbn. by rewrite app_nil_r. }
    rewrite Hcat in Hd.
    unfold dumps_val, bind, lift. rewrite Hd. cbn.
    rewrite <- app_assoc, <- list_fmap_compose. reflexivity.
Qed.

(** X17.  Memberships are all or nothing: when a [ClientError] is raised
    on any page, the first or a later one, [_thing_groups_for_thing] returns
    [None] after a warning; the groups of the pages fetched before are
    dropped and the scan is not aborted. *)
Theorem memberships_all_or_nothing (fuel : nat) (self : AIC_fdw)
    (thing : pyval) (init : list list_response) (m : string)
    (rest : list (exn + list_response))
    (w : world (list (exn + list_response))) :
  Forall (λ p, truthy (token_val (resp_nextToken p)) = true) init →
  backend w = (inr <$> init) ++ inl (ClientError m) :: rest →
  (length init ≤ fuel)%nat →
  ∃ cs l,
    _thing_groups_for_thing script_client dumps fuel self thing w
    = (Ret VNone,
       {| backend := rest;
          calls := calls w ++ cs;
          logs := logs w ++ [l];
          rows := rows w |})
    ∧ length cs = S (length init)
    ∧ log_lvl l = WARNING.
Proof.
  intros Hinit Hb Hf.
  unfold _thing_groups_for_thing, try_except, bind at 1, invoke.
  cbn [list_thing_groups_for_thing script_client]. unfold script_list.
  rewrite Hb.
  destruct Hinit as [|p init Hp Hinit]; cbn [fmap list_fmap app].
  - do 2 eexists. split; [reflexivity|]. done.
  - unfold bind at 1.
    erewrite (thing_groups_more_script fuel self thing (resp_items p)
                (token_val (resp_nextToken p)) init (inl (ClientError m))
                rest);
      [|exact Hinit|exact Hp|exact I|reflexivity|cbn in Hf; lia].
    do 2 eexists. split; [cbn; rewrite <- app_assoc; reflexivity|].
    split; [|done]. cbn. by rewrite !length_fmap.
Qed.

(** The [while True] loop of the group scan against a script that ends in
    an exception. *)
Lemma thing_group_pages_failing_script fuel self columns prefix tok
    init e rest (w : world (list (exn + list_response))) :
  Forall (λ p, truthy (token_val (resp_nextToken p)) = true) init →
  backend w = (inr <$> init) ++ inl e :: rest →
  (length init < fuel)%nat →
  ∃ cs,
    thing_group_pages script_client fuel self columns prefix tok w
    = (Raise e,
       {| backend := rest;
          calls := calls w ++ cs;
          logs := logs w;
          rows := rows w ++ expected_group_rows self columns init |})
    ∧ length cs = S (length init).
Proof.
  intros Hinit. revert fuel tok w.
  induction Hinit as [|p init Hp _ IH]; intros fuel tok w Hb Hf;
    (destruct fuel as [|fuel]; [cbn in Hf; lia|]);
    cbn [thing_group_pages]; unfold bind at 1, invoke;
    cbn [list_thing_groups script_client]; unfold script_list;
    rewrite Hb; cbn [fmap list_fmap app].
  - eexists. split;
      [unfold expected_group_rows; cbn; rewrite (app_nil_r (rows w));
       reflexivity
      |reflexivity].
  - unfold bind at 1. rewrite for_each_yield. rewrite Hp.
    edestruct (IH fuel (token_val (resp_nextToken p))) as (cs & -> & Hlen);
      [reflexivity|cbn in Hf; lia|].
    eexists. split.
    + unfold expected_group_rows. cbn. rewrite <- !app_assoc. reflexivity.
    + cbn. by rewrite Hlen.
Qed.

(** X18.  When a later page of a group scan fails, the rows of the pages
    before it have already been yielded: the scan hands out the rows of
    every page fetched, then aborts after one line logged at level
    [ERROR]. *)
Theorem group_scan_yields_before_failure (fuel : nat) (self : AIC_fdw)
    (quals : list Qual) (columns : gset string)
    (init : list list_response) (e : exn)
    (rest : list (exn + list_response))
    (w : world (list (exn + list_response))) :
  constructed (list (exn + list_response)) self →
  str_lower (table_type self) = "thing-group" →
  Forall (λ p, truthy (token_val (resp_nextToken p)) = true) init →
  backend w = (inr <$> init) ++ inl e :: rest →
  (length init < fuel)%nat →
  ∃ cs l,
    execute script_client dumps dumps_default_str fuel self quals columns w
    = (Abort,
       {| backend := rest;
          calls := calls w ++ cs;
          logs := logs w ++ [l];
          rows := rows w ++ expected_group_rows self columns init |})
    ∧ length cs = S (length init)
    ∧ log_lvl l = ERROR.
Proof.
  intros Hself Hkind Hinit Hb Hf.
  destruct (constructed_inv _ _ Hself) as (_ & Hwild & _).
  unfold execute. rewrite Hkind. cbn [String.eqb Ascii.eqb Bool.eqb].
  unfold _execute_thing_group. unfold bind at 1.
  rewrite thing_group_prefix_loop by done. unfold try_except.
  edestruct (thing_group_pages_failing_script fuel self columns)
    as (cs & -> & Hlen); [exact Hinit|exact Hb|exact Hf|].
  destruct e; do 2 eexists; (split; [reflexivity|done]).
Qed.

End Scripted.

Section ShadowSuccess.

Context {St : Type} (cl : client St).
Context (dumps : pyval → exn + string).

(** X19.  When the shadow column is requested and the lookup answers with
    a payload, the row is yielded with the payload's bytes under
    [thing_shadow_data]; the lookup is one [get_thing_shadow] call naming
    the thing, nothing is logged, and the loop goes on with the remaining
    devices. *)
Theorem shadow_payload_lands_in_row (fuel : nat) (self : AIC_fdw)
    (columns : gset string) (thing : gmap string pyval)
    (rest : list (gmap string pyval)) (w w0 : world St)
    (r0 : gmap string pyval) (data : string) (st' : St) :
  "thing_shadow_data" ∈ columns →
  thing_row cl dumps fuel self (columns ∖ {[ "thing_shadow_data" ]}) thing w
  = (Ret r0, w0) →
  get_thing_shadow cl {[ "thingName" := get thing "thingName" ]} (backend w0)
  = (inr {| resp_payload := Some data |}, st') →
  thing_rows cl dumps fuel self columns (thing :: rest) w
  = thing_rows cl dumps fuel self columns rest
      {| backend := st';
         calls := calls w0
                  ++ [{| call_op := GetThingShadow;
                         call_args :=
                           {[ "thingName" := get thing "thingName" ]} |}];
         logs := logs w0;
         rows := rows w0 ++ [<["thing_shadow_data" := VBytes data]> r0] |}.
Proof.
  intros Hin Hrow Hshadow.
  unfold thing_rows. cbn [for_each]. unfold bind at 1 2.
  rewrite thing_row_shadow_last by done.
  unfold bind at 1. rewrite Hrow. unfold bind at 1.
  unfold _thing_shadow_data, try_except, bind at 1, invoke.
  rewrite Hshadow. reflexivity.
Qed.

End ShadowSuccess.

(** ** The scan of things against the scripted answers *)

Section ThingScript.

Context (dumps dumps_default_str : pyval → exn + string).

Lemma thing_row_plain {St} (cl : client St) fuel self columns thing
    (w : world St) :
  "thing_groups" ∉ columns → "thing_attributes" ∉ columns →
  "thing_shadow_data" ∉ columns →
  thing_row cl dumps fuel self columns thing w
  = (Ret (thing_plain_row self columns thing), w).
Proof.
  intros Hg Ha Hs. unfold thing_row, update_if_m.
  rewrite !bool_decide_eq_false_2 by done. reflexivity.
Qed.

Lemma thing_rows_plain {St} (cl : client St) fuel self columns things
    (w : world St) :
  "thing_groups" ∉ columns → "thing_attributes" ∉ columns →
  "thing_shadow_data" ∉ columns →
  thing_rows cl dumps fuel self columns things w
  = (Ret tt, {| backend := backend w; calls := calls w; logs := logs w;
                rows := rows w
                        ++ (thing_plain_row self columns <$> things) |}).
Proof.
  intros Hg Ha Hs. unfold thing_rows. revert w.
  induction things as [|thing things IH]; intros w;
    cbn [for_each fmap list_fmap].
  - unfold ret. rewrite app_nil_r. by destruct w.
  - unfold bind at 1 2. rewrite thing_row_plain by done.
    unfold yield at 1. rewrite IH. cbn. by rewrite <- app_assoc.
Qed.

Lemma thing_pages_script fuel self columns filter tok init last rest
    (w : world (list (exn + list_response))) :
  "thing_groups" ∉ columns → "thing_attributes" ∉ columns →
  "thing_shadow_data" ∉ columns →
  Forall (λ p, truthy (token_val (resp_nextToken p)) = true) init →
  truthy (token_val (resp_nextToken last)) = false →
  backend w = (inr <$> init ++ [last]) ++ rest →
  (length init < fuel)%nat →
  thing_pages script_client dumps fuel self columns filter tok w
  = (Ret tt,
     {| backend := rest;
        calls := calls w
                 ++ ((λ t, {| call_op := ListThings;
                              call_args := list_call_args self t
                                             "thingTypeName" filter |})
                       <$> tok :: ((λ p, token_val (resp_nextToken p))
                                     <$> init));
        logs := logs w;
        rows := rows w
                ++ concat ((λ p, thing_plain_row self columns
                                   <$> resp_items p) <$> init ++ [last]) |}).
Proof.
  intros Hg Ha Hs Hinit Hlast. revert fuel tok w.
  induction Hinit as [|p init Hp _ IH]; intros fuel tok w Hb Hf;
    (destruct fuel as [|fuel]; [cbn in Hf; lia|]);
    cbn [thing_pages]; unfold bind at 1, invoke;
    cbn [list_things script_client]; unfold script_list;
    rewrite Hb; cbn [fmap list_fmap app]; lazy beta iota zeta;
    unfold bind at 1; rewrite thing_rows_plain by done.
  - rewrite Hlast. unfold ret. cbn. by rewrite !app_nil_r.
  - rewrite Hp. erewrite IH; [|reflexivity|cbn in Hf; lia].
    cbn. by rewrite <- !app_assoc.
Qed.

Lemma thing_plain_rows_concat self columns (pages : list list_response) :
  concat ((λ p, thing_plain_row self columns <$> resp_items p) <$> pages)
  = thing_plain_row self columns <$> concat (resp_items <$> pages).
Proof.
  induction pages as [|p pages IH]; [done|].
  cbn. by rewrite fmap_app, IH.
Qed.

Lemma thing_plain_row_entries self columns thing :
  _row_id_column self = "thing_name" →
  thing_plain_row self columns thing !! "thing_name"
  = Some (get thing "thingName")
  ∧ ("thing_type_name" ∈ columns →
     thing_plain_row self columns thing !! "thing_type_name"
     = Some (get thing "thingTypeName"))
  ∧ ("thing_arn" ∈ columns →
     thing_plain_row self columns thing !! "thing_arn"
     = Some (get thing "thingArn"))
  ∧ ("thing_version" ∈ columns →
     thing_plain_row self columns thing !! "thing_version"
     = Some (get thing "version")).
Proof.
  intros Hid. unfold thing_plain_row, update_if. rewrite Hid.
  repeat split; repeat case_bool_decide; intros; by simplify_map_eq.
Qed.

(** X20.  The rows of a scan of things are the items in the backend's
    order.  When no column that needs a further call or a serialisation is
    requested, then against a script of pages, all but the last with a
    cursor, the scan returns normally after one call per page and yields
    one row per item, in order; the row of an item has the item's
    [thingName] under [thing_name] and, for each of [thing_type_name],
    [thing_arn] and [thing_version] that is requested, the item's
    [thingTypeName], [thingArn] and [version]. *)
Theorem thing_scan_rows_in_order (fuel : nat) (self : AIC_fdw)
    (quals : list Qual) (columns : gset string)
    (init : list list_response) (last : list_response)
    (rest : list (exn + list_response))
    (w : world (list (exn + list_response))) :
  constructed (list (exn + list_response)) self →
  str_lower (table_type self) = "thing" →
  "thing_groups" ∉ columns → "thing_attributes" ∉ columns →
  "thing_shadow_data" ∉ columns →
  Forall (λ p, truthy (token_val (resp_nextToken p)) = true) init →
  truthy (token_val (resp_nextToken last)) = false →
  backend w = (inr <$> init ++ [last]) ++ rest →
  (length init < fuel)%nat →
  ∃ cs rs,
    execute script_client dumps dumps_default_str fuel self quals columns w
    = (Ret tt,
       {| backend := rest;
          calls := calls w ++ cs;
          logs := logs w;
          rows := rows w ++ rs |})
    ∧ length cs = S (length init)
    ∧ length rs = length (concat (resp_items <$> init ++ [last]))
    ∧ ∀ i thing row,
        concat (resp_items <$> init ++ [last]) !! i = Some thing →
        rs !! i = Some row →
        row !! "thing_name" = Some (get thing "thingName")
        ∧ ("thing_type_name" ∈ columns →
           row !! "thing_type_name" = Some (get thing "thingTypeName"))
        ∧ ("thing_arn" ∈ columns →
           row !! "thing_arn" = Some (get thing "thingArn"))
        ∧ ("thing_version" ∈ columns →
           row !! "thing_version" = Some (get thing "version")).
Proof.
  intros Hself Hkind Hg Ha Hs Hinit Hlast Hb Hf.
  destruct (constructed_inv _ _ Hself) as (_ & _ & Hrid).
  assert (_row_id_column self = "thing_name") as Hid.
  { apply row_id_thing; [done|]. by rewrite Hkind. }
  unfold execute. rewrite Hkind. cbn [String.eqb Ascii.eqb Bool.eqb].
  unfold _execute_thing, try_except.
  rewrite (thing_pages_script fuel self columns _ VNone init last rest)
    by done.
  do 2 eexists. split; [reflexivity|].
  split; [cbn; by rewrite !length_fmap|].
  rewrite thing_plain_rows_concat.
  split; [by rewrite length_fmap|].
  intros i thing row Hthing Hrow.
  rewrite list_lookup_fmap, Hthing in Hrow. injection Hrow as <-.
  by apply thing_plain_row_entries.
Qed.

End ThingScript.

(** ** The further properties on concrete inputs *)

(** X1 for the options of a table declared as [Thing-Type]: with a
    [boto3.client] that accepts, and with one that rejects the region. *)
Lemma init_outcome_with_complete_options_witness :
  (∃ self,
     __init__ stub_boto3 (stub_options "Thing-Type") (fresh_world tt)
     = (Ret self, fresh_world tt)
     ∧ table_type self
       = default "thing" (stub_options "Thing-Type" !! "table_type")
     ∧ MAX_RESULTS self = 250
     ∧ endpoint_url self = stub_options "Thing-Type" !! "url"
     ∧ rowid_column self
       = (if String.eqb (str_lower (table_type self)) "thing"
          then "thing_name"
          else if String.eqb (str_lower (table_type self)) "thing-type"
               then "thing_type_name"
               else "thing_group_name"))
  ∧ __init__ (λ _ _, inl (OtherException "InvalidRegionError"))
      (stub_options "Thing-Type") (fresh_world tt)
    = (Raise (OtherException "InvalidRegionError"), fresh_world tt).
Proof.
  split.
  - apply (proj1 (init_outcome_with_complete_options stub_boto3
                    (stub_options "Thing-Type") (fresh_world tt)
                    "eu-central-1" "AK" "SK"
                    ltac:(vm_compute; reflexivity)
                    ltac:(vm_compute; reflexivity)
                    ltac:(vm_compute; reflexivity)
                    ltac:(right; left; vm_compute; reflexivity))).
    intros kw _. split; reflexivity.
  - apply (proj1 (proj2 (init_outcome_with_complete_options
                           (λ _ _, inl (OtherException "InvalidRegionError"))
                           (stub_options "Thing-Type") (fresh_world tt)
                           "eu-central-1" "AK" "SK"
                           ltac:(vm_compute; reflexivity)
                           ltac:(vm_compute; reflexivity)
                           ltac:(vm_compute; reflexivity)
                           ltac:(right; left; vm_compute; reflexivity)))).
    intros kw _. reflexivity.
Defined.

(** X2 for options that hold nothing at all. *)
Lemma init_rejects_incomplete_options_witness :
  (__init__ stub_boto3 ∅ (fresh_world tt)).1 = Abort
  ∧ calls (__init__ stub_boto3 ∅ (fresh_world tt)).2 = calls (fresh_world tt)
  ∧ ∃ l, logs (__init__ stub_boto3 ∅ (fresh_world tt)).2
         = logs (fresh_world tt) ++ [l]
         ∧ log_lvl l = ERROR.
Proof.
  apply (init_rejects_incomplete_options stub_boto3 ∅ (fresh_world tt)).
  left. vm_compute. reflexivity.
Defined.

(** X3 for the table of thing groups of a schema named [iot]. *)
Lemma imported_tables_have_their_row_id_witness :
  ∃ self c,
    __init__ stub_boto3 (stub_options "thing-group") (fresh_world tt)
    = (Ret self, fresh_world tt)
    ∧ head [{| column_name := "thing_group_name"; type_name := "text" |};
            {| column_name := "thing_group_arn"; type_name := "text" |}]
      = Some c
    ∧ column_name c = rowid_column self
    ∧ get_path_keys self = [([column_name c], 1)].
Proof.
  apply (imported_tables_have_their_row_id stub_boto3 "iot"
           {| table_name := "iot_thing_groups";
              table_schema := "iot";
              table_options := {[ "table_type" := "thing-group" ]};
              table_columns :=
                [{| column_name := "thing_group_name"; type_name := "text" |};
                 {| column_name := "thing_group_arn"; type_name := "text" |}]
           |}
           (stub_options "thing-group") (fresh_world tt)
           "eu-central-1" "AK" "SK").
  - unfold import_schema. rewrite !elem_of_cons. right; right; left.
    vm_compute. reflexivity.
  - vm_compute. reflexivity.
  - vm_compute. reflexivity.
  - vm_compute. reflexivity.
  - vm_compute. reflexivity.
  - intros service kw _. reflexivity.
Defined.

(** X4 for a scan of two pages of thing types. *)
Lemma scan_rows_carry_row_id_witness :
  ∃ rs,
    rows (execute stub_client stub_dumps stub_dumps 2 (stub_self "thing-type")
            [] {[ "thing_type_name"; "thing_type_arn" ]}
            (stub_world two_type_pages ∅)).2
    = rows (stub_world two_type_pages ∅) ++ rs
    ∧ Forall (λ r, is_Some (r !! rowid_column (stub_self "thing-type"))
                   ∧ ∀ k, k ≠ rowid_column (stub_self "thing-type") →
                          k ∉ ({[ "thing_type_name"; "thing_type_arn" ]}
                               : gset string) →
                          r !! k = None) rs.
Proof.
  apply (scan_rows_carry_row_id stub_client stub_dumps stub_dumps 2
           (stub_self "thing-type") []
           {[ "thing_type_name"; "thing_type_arn" ]}
           (stub_world two_type_pages ∅)).
  exists stub_boto3, (stub_options "thing-type"), (stub_world [] ∅), (stub_world [] ∅).
  vm_compute. reflexivity.
Defined.

(** X5 for a scan of two devices that asks for their shadows. *)
Lemma scan_only_reads_witness :
  ∃ cs,
    calls (execute stub_client stub_dumps stub_dumps 2 (stub_self "thing") []
             {[ "thing_name"; "thing_groups"; "thing_shadow_data" ]}
             (stub_world two_devices ∅)).2
    = calls (stub_world two_devices ∅) ++ cs
    ∧ Forall (λ c,
        ((call_op c = ListThings ∨ call_op c = ListThingTypes
          ∨ call_op c = ListThingGroups
          ∨ call_op c = ListThingGroupsForThing)
         ∧ call_args c !! "maxResults" = Some (VInt 250))
        ∨ (call_op c = GetThingShadow
           ∧ ∃ thing, call_args c = {[ "thingName" := thing ]})) cs.
Proof.
  apply (scan_only_reads stub_client stub_dumps stub_dumps 2
           (stub_self "thing") []
           {[ "thing_name"; "thing_groups"; "thing_shadow_data" ]}
           (stub_world two_devices ∅)).
  exists stub_boto3, (stub_options "thing"), (stub_world [] ∅), (stub_world [] ∅).
  vm_compute. reflexivity.
Defined.

(** X6 for a scan of things under a LIKE predicate only. *)
Lemma thing_scan_unfiltered_witness :
  ∃ cs,
    calls (execute stub_client stub_dumps stub_dumps 2 (stub_self "thing")
             [like_abc] {[ "thing_name" ]} (stub_world two_devices ∅)).2
    = calls (stub_world two_devices ∅) ++ cs
    ∧ Forall (λ c, call_op c = ListThings →
                   call_args c !! "thingTypeName" = None) cs.
Proof.
  apply (thing_scan_unfiltered_without_equality stub_client stub_dumps
           stub_dumps 2 (stub_self "thing") [like_abc] {[ "thing_name" ]}
           (stub_world two_devices ∅)).
  - reflexivity.
  - repeat constructor.
Defined.

(** X7 for the predicate [Thing_Group_Name = 'abc'] followed by a LIKE
    predicate. *)
Lemma group_scan_prefix_witness :
  ∃ cs,
    calls (execute stub_client stub_dumps stub_dumps 3
             (stub_self "thing-group") ([] ++ group_equals "abc" :: [like_abc])
             {[ "thing_group_name" ]} (stub_world three_pages ∅)).2
    = calls (stub_world three_pages ∅) ++ cs
    ∧ Forall (λ c, call_op c = ListThingGroups
                   ∧ call_args c !! "namePrefixFilter"
                     = Some (value (group_equals "abc"))) cs.
Proof.
  apply (group_scan_prefix_is_last_equality stub_client stub_dumps stub_dumps
           3 (stub_self "thing-group") [] [like_abc] (group_equals "abc")
           {[ "thing_group_name" ]} (stub_world three_pages ∅)).
  - exists stub_boto3, (stub_options "thing-group"), (stub_world [] ∅), (stub_world [] ∅).
    vm_compute. reflexivity.
  - reflexivity.
  - reflexivity.
  - repeat constructor.
  - reflexivity.
Defined.

(** X8 for a scan of thing groups under a predicate on the type name. *)
Lemma group_scan_ignores_other_predicates_witness :
  ∃ cs,
    calls (execute stub_client stub_dumps stub_dumps 3
             (stub_self "thing-group") [type_equals "a"]
             {[ "thing_group_name" ]} (stub_world three_pages ∅)).2
    = calls (stub_world three_pages ∅) ++ cs
    ∧ Forall (λ c, call_op c = ListThingGroups
                   ∧ call_args c !! "namePrefixFilter" = None) cs.
Proof.
  apply (group_scan_ignores_other_predicates stub_client stub_dumps
           stub_dumps 3 (stub_self "thing-group") [type_equals "a"]
           {[ "thing_group_name" ]} (stub_world three_pages ∅)).
  - exists stub_boto3, (stub_options "thing-group"), (stub_world [] ∅), (stub_world [] ∅).
    vm_compute. reflexivity.
  - reflexivity.
  - constructor; [left; vm_compute; discriminate | constructor].
Defined.

(** X9 for the predicate [thing_type_name = 'A']. *)
Lemma thing_type_scan_first_call_witness :
  ∃ c cs,
    calls (execute stub_client stub_dumps stub_dumps 2 (stub_self "thing-type")
             [type_equals "A"] {[ "thing_type_name" ]}
             (stub_world two_type_pages ∅)).2
    = calls (stub_world two_type_pages ∅) ++ c :: cs
    ∧ call_op c = ListThingTypes
    ∧ call_args c !! "nextToken" = None
    ∧ (∀ pre q post,
         [type_equals "A"] = pre ++ q :: post →
         type_name_equality q = true →
         Forall (λ q', type_name_equality q' = false) post →
         truthy (value q) = true →
         call_args c !! "thingTypeName" = Some (value q))
    ∧ (Forall (λ q, type_name_equality q = false) [type_equals "A"] →
       call_args c !! "thingTypeName" = None).
Proof.
  apply (thing_type_scan_first_call stub_client stub_dumps stub_dumps 1
           (stub_self "thing-type") [type_equals "A"]
           {[ "thing_type_name" ]} (stub_world two_type_pages ∅)).
  reflexivity.
Defined.

(** X10 for a scan of things against a backend that refuses every call. *)
Lemma scan_never_raises_witness :
  (execute refusing_client stub_dumps stub_dumps 1 (stub_self "thing") []
     {[ "thing_name" ]} (fresh_world tt)).1
  ≠ Raise (ClientError "AccessDenied").
Proof.
  apply (scan_never_raises refusing_client stub_dumps stub_dumps 1
           (stub_self "thing") [] {[ "thing_name" ]} (fresh_world tt)
           (ClientError "AccessDenied")).
  exists stub_boto3, (stub_options "thing"), (fresh_world tt), (fresh_world tt).
  vm_compute. reflexivity.
Defined.

(** X11 for a scan of things whose list call is refused. *)
Lemma scan_aborts_when_list_fails_witness :
  ∃ c l,
    execute refusing_client stub_dumps stub_dumps 1 (stub_self "thing") []
      {[ "thing_name" ]} (fresh_world tt)
    = (Abort, {| backend := tt;
                 calls := calls (fresh_world tt) ++ [c];
                 logs := logs (fresh_world tt) ++ [l];
                 rows := rows (fresh_world tt) |})
    ∧ log_lvl l = ERROR.
Proof.
  apply (scan_aborts_when_list_fails refusing_client stub_dumps stub_dumps 0
           (stub_self "thing") [] {[ "thing_name" ]} (fresh_world tt)
           (ClientError "AccessDenied") tt).
  - exists stub_boto3, (stub_options "thing"), (fresh_world tt), (fresh_world tt).
    vm_compute. reflexivity.
  - left. split; reflexivity.
Defined.

(** X12 for the insert of a device, accepted by the backend. *)
Lemma insert_thing_outcomes_witness :
  ∃ kwargs : gmap string pyval,
    kwargs !! "thingName" = Some (get typed_device "thing_name")
    ∧ (∀ k, k ≠ "thingName" → k ≠ "thingTypeName" → kwargs !! k = None)
    ∧ calls (insert stub_client (stub_self "thing") typed_device
               (stub_world [] ∅)).2
      = calls (stub_world [] ∅)
        ++ [{| call_op := CreateThing; call_args := kwargs |}]
    ∧ backend (insert stub_client (stub_self "thing") typed_device
                 (stub_world [] ∅)).2
      = (create_thing stub_client kwargs (backend (stub_world [] ∅))).2
    ∧ rows (insert stub_client (stub_self "thing") typed_device
              (stub_world [] ∅)).2 = rows (stub_world [] ∅)
    ∧ match (create_thing stub_client kwargs
               (backend (stub_world [] ∅))).1 with
      | inr _ =>
          (insert stub_client (stub_self "thing") typed_device
             (stub_world [] ∅)).1 = Ret (Some typed_device)
          ∧ logs (insert stub_client (stub_self "thing") typed_device
                    (stub_world [] ∅)).2 = logs (stub_world [] ∅)
      | inl _ =>
          (insert stub_client (stub_self "thing") typed_device
             (stub_world [] ∅)).1 = Abort
          ∧ ∃ l, logs (insert stub_client (stub_self "thing") typed_device
                         (stub_world [] ∅)).2
                 = logs (stub_world [] ∅) ++ [l]
                 ∧ log_lvl l = ERROR
      end.
Proof.
  apply (insert_thing_outcomes stub_client (stub_self "thing") typed_device
           (stub_world [] ∅)).
  reflexivity.
Defined.

(** X13 for a delete that the backend refuses. *)
Lemma delete_thing_outcomes_witness :
  calls (delete refusing_client (stub_self "thing") (VStr "dev1")
           (fresh_world tt)).2
  = calls (fresh_world tt)
    ++ [{| call_op := DeleteThing;
           call_args := {[ "thingName" := VStr "dev1" ]} |}]
  ∧ backend (delete refusing_client (stub_self "thing") (VStr "dev1")
               (fresh_world tt)).2
    = (delete_thing refusing_client {[ "thingName" := VStr "dev1" ]}
         (backend (fresh_world tt))).2
  ∧ rows (delete refusing_client (stub_self "thing") (VStr "dev1")
            (fresh_world tt)).2 = rows (fresh_world tt)
  ∧ match (delete_thing refusing_client {[ "thingName" := VStr "dev1" ]}
             (backend (fresh_world tt))).1 with
    | inr _ =>
        (delete refusing_client (stub_self "thing") (VStr "dev1")
           (fresh_world tt)).1 = Ret None
        ∧ logs (delete refusing_client (stub_self "thing") (VStr "dev1")
                  (fresh_world tt)).2 = logs (fresh_world tt)
    | inl _ =>
        (delete refusing_client (stub_self "thing") (VStr "dev1")
           (fresh_world tt)).1 = Abort
        ∧ ∃ l, logs (delete refusing_client (stub_self "thing") (VStr "dev1")
                       (fresh_world tt)).2 = logs (fresh_world tt) ++ [l]
               ∧ log_lvl l = ERROR
    end.
Proof.
  apply (delete_thing_outcomes refusing_client (stub_self "thing")
           (VStr "dev1") (fresh_world tt)).
  reflexivity.
Defined.

(** X14 for an update whose shadow call is answered without a payload. *)
Lemma update_thing_without_payload_witness :
  calls (update script_client (stub_self "thing") (VStr "dev1")
           {[ "thing_shadow_data" := VStr "{}" ]} (fresh_world (@nil (exn + list_response)))).2
  = calls (fresh_world (@nil (exn + list_response)))
    ++ [{| call_op := UpdateThingShadow;
           call_args := <["payload" := VStr "{}"]>
                          {[ "thingName" := VStr "dev1" ]} |}]
  ∧ match (update_thing_shadow script_client
             (<["payload" := VStr "{}"]> {[ "thingName" := VStr "dev1" ]})
             (backend (fresh_world (@nil (exn + list_response))))).1
    with
    | inr {| resp_payload := None |} =>
        (update script_client (stub_self "thing") (VStr "dev1")
           {[ "thing_shadow_data" := VStr "{}" ]} (fresh_world (@nil (exn + list_response)))).1
        = Ret (Some {[ "thing_shadow_data" := VStr "{}" ]})
        ∧ logs (update script_client (stub_self "thing") (VStr "dev1")
                  {[ "thing_shadow_data" := VStr "{}" ]} (fresh_world (@nil (exn + list_response)))).2
          = logs (fresh_world (@nil (exn + list_response)))
    | inr {| resp_payload := Some data |} =>
        (update script_client (stub_self "thing") (VStr "dev1")
           {[ "thing_shadow_data" := VStr "{}" ]} (fresh_world (@nil (exn + list_response)))).1
        = Ret (Some (<["thing_shadow_data" := VBytes data]>
                       {[ "thing_shadow_data" := VStr "{}" ]}))
    | inl _ =>
        (update script_client (stub_self "thing") (VStr "dev1")
           {[ "thing_shadow_data" := VStr "{}" ]} (fresh_world (@nil (exn + list_response)))).1 = Abort
        ∧ ∃ l, logs (update script_client (stub_self "thing") (VStr "dev1")
                       {[ "thing_shadow_data" := VStr "{}" ]}
                       (fresh_world (@nil (exn + list_response)))).2 = logs (fresh_world (@nil (exn + list_response))) ++ [l]
               ∧ log_lvl l = ERROR
    end.
Proof.
  apply (update_thing_without_payload script_client (stub_self "thing")
           (VStr "dev1") (VStr "{}") {[ "thing_shadow_data" := VStr "{}" ]}
           (fresh_world (@nil (exn + list_response)))).
  - reflexivity.
  - vm_compute. reflexivity.
Defined.

(** X15 for an insert on a thing-type table. *)
Lemma mutations_raise_only_on_thing_type_witness :
  str_lower (table_type (stub_self "thing-type")) = "thing-type"
  ∧ NotImplementedError = NotImplementedError.
Proof.
  apply (mutations_raise_only_on_thing_type stub_client
           (stub_self "thing-type") typed_device typed_device (VStr "dev1")
           (stub_world [] ∅) NotImplementedError).
  left. reflexivity.
Defined.

(** X16 for two pages of memberships. *)
Lemma memberships_drained_witness :
  _thing_groups_for_thing script_client stub_dumps 1 (stub_self "thing")
    (VStr "dev1") (fresh_world membership_script)
  = (Ret (VStr "json"),
     {| backend := [];
        calls :=
          calls (fresh_world membership_script)
          ++ {| call_op := ListThingGroupsForThing;
                call_args :=
                  membership_args (stub_self "thing") (VStr "dev1") |}
             :: ((λ p, {| call_op := ListThingGroupsForThing;
                          call_args :=
                            <["nextToken" := token_val (resp_nextToken p)]>
                              (membership_args (stub_self "thing")
                                 (VStr "dev1")) |})
                   <$> [membership_page ["a"] (Some "n1")]);
        logs := logs (fresh_world membership_script);
        rows := rows (fresh_world membership_script) |}).
Proof.
  apply (memberships_drained stub_dumps 1 (stub_self "thing") (VStr "dev1")
           [membership_page ["a"] (Some "n1")] (membership_page ["b"] None)
           [] (fresh_world membership_script) "json").
  - repeat constructor.
  - reflexivity.
  - reflexivity.
  - cbn. lia.
  - reflexivity.
Defined.

(** X17 for a first page of memberships followed by a throttling error. *)
Lemma memberships_all_or_nothing_witness :
  ∃ cs l,
    _thing_groups_for_thing script_client stub_dumps 1 (stub_self "thing")
      (VStr "dev1") (fresh_world failing_membership_script)
    = (Ret VNone,
       {| backend := [];
          calls := calls (fresh_world failing_membership_script) ++ cs;
          logs := logs (fresh_world failing_membership_script) ++ [l];
          rows := rows (fresh_world failing_membership_script) |})
    ∧ length cs = S (length [membership_page ["a"] (Some "n1")])
    ∧ log_lvl l = WARNING.
Proof.
  apply (memberships_all_or_nothing stub_dumps 1 (stub_self "thing")
           (VStr "dev1") [membership_page ["a"] (Some "n1")] "Throttling" []
           (fresh_world failing_membership_script)).
  - repeat constructor.
  - reflexivity.
  - cbn. lia.
Defined.

(** X18 for a first page of groups followed by a throttling error. *)
Lemma group_scan_yields_before_failure_witness :
  ∃ cs l,
    execute script_client stub_dumps stub_dumps 2 (stub_self "thing-group") []
      {[ "thing_group_name" ]} (fresh_world failing_group_script)
    = (Abort,
       {| backend := [];
          calls := calls (fresh_world failing_group_script) ++ cs;
          logs := logs (fresh_world failing_group_script) ++ [l];
          rows := rows (fresh_world failing_group_script)
                  ++ expected_group_rows (stub_self "thing-group")
                       {[ "thing_group_name" ]}
                       [group_page 0 2 (Some "n1")] |})
    ∧ length cs = S (length [group_page 0 2 (Some "n1")])
    ∧ log_lvl l = ERROR.
Proof.
  apply (group_scan_yields_before_failure stub_dumps stub_dumps 2
           (stub_self "thing-group") [] {[ "thing_group_name" ]}
           [group_page 0 2 (Some "n1")] (ClientError "Throttling") []
           (fresh_world failing_group_script)).
  - exists stub_boto3, (stub_options "thing-group"),
      (fresh_world (@nil (exn + list_response))),
      (fresh_world (@nil (exn + list_response))).
    vm_compute. reflexivity.
  - reflexivity.
  - repeat constructor.
  - reflexivity.
  - cbn. lia.
Defined.

(** X19 for device [A], which has a shadow, followed by device [B]. *)
Lemma shadow_payload_lands_in_row_witness :
  thing_rows stub_client stub_dumps 1 (stub_self "thing")
    {[ "thing_name"; "thing_shadow_data" ]} (device "A" :: [device "B"])
    (stub_world [] {[ "A" := inr (Some "{}") ]})
  = thing_rows stub_client stub_dumps 1 (stub_self "thing")
      {[ "thing_name"; "thing_shadow_data" ]} [device "B"]
      {| backend := {| stub_pages := [];
                       stub_shadows := {[ "A" := inr (Some "{}") ]} |};
         calls := calls (stub_world [] {[ "A" := inr (Some "{}") ]})
                  ++ [{| call_op := GetThingShadow;
                         call_args :=
                           {[ "thingName" := get (device "A") "thingName" ]}
                       |}];
         logs := logs (stub_world [] {[ "A" := inr (Some "{}") ]});
         rows := rows (stub_world [] {[ "A" := inr (Some "{}") ]})
                 ++ [<["thing_shadow_data" := VBytes "{}"]>
                       {[ "thing_name" := VStr "A" ]}] |}.
Proof.
  apply (shadow_payload_lands_in_row stub_client stub_dumps 1
           (stub_self "thing") {[ "thing_name"; "thing_shadow_data" ]}
           (device "A") [device "B"]
           (stub_world [] {[ "A" := inr (Some "{}") ]})
           (stub_world [] {[ "A" := inr (Some "{}") ]})
           {[ "thing_name" := VStr "A" ]} "{}"
           {| stub_pages := []; stub_shadows := {[ "A" := inr (Some "{}") ]} |}).
  - apply (bool_decide_unpack _). vm_compute. exact I.
  - vm_compute. reflexivity.
  - vm_compute. reflexivity.
Defined.

(** X20 for two pages of one device each. *)
Lemma thing_scan_rows_in_order_witness :
  ∃ cs rs,
    execute script_client stub_dumps stub_dumps 2 (stub_self "thing") []
      {[ "thing_name"; "thing_arn" ]} (fresh_world device_script)
    = (Ret tt,
       {| backend := [];
          calls := calls (fresh_world device_script) ++ cs;
          logs := logs (fresh_world device_script);
          rows := rows (fresh_world device_script) ++ rs |})
    ∧ length cs
      = S (length [{| resp_items := [device "A"];
                      resp_nextToken := Some "n1" |}])
    ∧ length rs
      = length (concat (resp_items
                          <$> [{| resp_items := [device "A"];
                                  resp_nextToken := Some "n1" |}]
                              ++ [{| resp_items := [device "B"];
                                     resp_nextToken := None |}]))
    ∧ ∀ i thing row,
        concat (resp_items
                  <$> [{| resp_items := [device "A"];
                          resp_nextToken := Some "n1" |}]
                      ++ [{| resp_items := [device "B"];
                             resp_nextToken := None |}]) !! i = Some thing →
        rs !! i = Some row →
        row !! "thing_name" = Some (get thing "thingName")
        ∧ ("thing_type_name" ∈ ({[ "thing_name"; "thing_arn" ]} : gset string) →
           row !! "thing_type_name" = Some (get thing "thingTypeName"))
        ∧ ("thing_arn" ∈ ({[ "thing_name"; "thing_arn" ]} : gset string) →
           row !! "thing_arn" = Some (get thing "thingArn"))
        ∧ ("thing_version" ∈ ({[ "thing_name"; "thing_arn" ]} : gset string) →
           row !! "thing_version" = Some (get thing "version")).
Proof.
  apply (thing_scan_rows_in_order stub_dumps stub_dumps 2 (stub_self "thing")
           [] {[ "thing_name"; "thing_arn" ]}
           [{| resp_items := [device "A"]; resp_nextToken := Some "n1" |}]
           {| resp_items := [device "B"]; resp_nextToken := None |} []
           (fresh_world device_script)).
  - exists stub_boto3, (stub_options "thing"),
      (fresh_world (@nil (exn + list_response))),
      (fresh_world (@nil (exn + list_response))).
    vm_compute. reflexivity.
  - reflexivity.
  - apply (bool_decide_unpack _). vm_compute. exact I.
  - apply (bool_decide_unpack _). vm_compute. exact I.
  - apply (bool_decide_unpack _). vm_compute. exact I.
  - repeat constructor.
  - reflexivity.
  - reflexivity.
  - cbn. lia.
Defined.
